(** * find_peaks_3d.py and cube_utils.py: a shallow embedding

    [src/scripts/find_peaks_3d.py] ([find_peaks]) and
    [src/utils/cube_utils.py] ([freq_smooth]).

    Floating-point samples are modelled by [fval]: NaN, the two
    infinities, and finite values (represented by integers: [find_peaks]
    only compares samples, it never does arithmetic on them).  numpy
    arrays are [ndarray]s: a shape and a flat row-major buffer, which is
    how numpy stores a C-contiguous array. *)

From Stdlib Require Import ZArith Lia Sorted.
From stdpp Require Import base list strings sorting.
Open Scope Z_scope.

(* ================================================================= *)
(** ** IEEE samples *)

Inductive fval := NaN | NInf | Fin (z : Z) | PInf.

Definition isnan (v : fval) : bool :=
  match v with NaN => true | _ => false end.

(** [a < b] on floats: every comparison with NaN is false. *)
Definition flt (a b : fval) : bool :=
  match a, b with
  | NaN, _ | _, NaN => false
  | NInf, NInf => false
  | NInf, _ => true
  | Fin x, Fin y => x <? y
  | Fin _, PInf => true
  | _, _ => false
  end.

(** [a == b] on floats: NaN is equal to nothing, not even itself. *)
Definition feq (a b : fval) : bool :=
  match a, b with
  | NaN, _ | _, NaN => false
  | NInf, NInf | PInf, PInf => true
  | Fin x, Fin y => x =? y
  | _, _ => false
  end.

(** [a <= b] as numpy computes it. *)
Definition fle (a b : fval) : bool := flt a b || feq a b.

(** Binary maximum as a comparison-based max filter computes it. *)
Definition fmax (a b : fval) : fval := if flt a b then b else a.

(** [np.nanmin]: the minimum ignoring NaNs; NaN when every entry is NaN. *)
Definition nanmin_step (acc x : fval) : fval :=
  if isnan x then acc
  else if isnan acc then x
  else if flt x acc then x else acc.

Definition nanmin (l : list fval) : fval := fold_left nanmin_step l NaN.

(* ================================================================= *)
(** ** n-dimensional arrays *)

Record ndarray (A : Type) := mk_nd { shape : list nat; buf : list A }.
Arguments mk_nd {A} _ _.
Arguments shape {A} _.
Arguments buf {A} _.

Definition ndim {A} (a : ndarray A) : nat := length (shape a).

(** Number of cells of a shape. *)
Definition size (sh : list nat) : nat := foldr Nat.mul 1%nat sh.

(** Row-major (C order) flat index -> multi-index. *)
Fixpoint unravel (sh : list nat) (f : nat) : list nat :=
  match sh with
  | [] => []
  | _ :: rest => (f / size rest)%nat :: unravel rest (f mod size rest)
  end.

(** Multi-index -> row-major flat index. *)
Fixpoint ravel (sh : list nat) (ix : list nat) : nat :=
  match sh, ix with
  | _ :: rest, i :: ix' => (i * size rest + ravel rest ix')%nat
  | _, _ => 0%nat
  end.

(** Element-wise map of two same-shape arrays (a numpy ufunc on two
    arrays of equal shape). *)
Definition nd_zip {A B C} (g : A -> B -> C) (a : ndarray A) (b : ndarray B)
  : ndarray C := mk_nd (shape a) (zip_with g (buf a) (buf b)).

Definition nd_map {A B} (g : A -> B) (a : ndarray A) : ndarray B :=
  mk_nd (shape a) (map g (buf a)).

(* ================================================================= *)
(** ** Python slices *)

(** Normalisation of a slice bound [s] against a length [n], as
    [slice.indices] does for a step of 1. *)
Definition slice_norm (n s : Z) : Z :=
  if s <? 0 then Z.max 0 (s + n) else Z.min s n.

(** Is position [i] selected by [x[lo:hi]] on an axis of length [n]? *)
Definition in_slice (n : nat) (lo hi : option Z) (i : nat) : bool :=
  let start := match lo with Some s => slice_norm (Z.of_nat n) s | None => 0 end in
  let stop := match hi with Some s => slice_norm (Z.of_nat n) s | None => Z.of_nat n end in
  (start <=? Z.of_nat i) && (Z.of_nat i <? stop).

(** [m.swapaxes(0, ax)[lo:hi] = False] followed by [.swapaxes(0, ax)]:
    the swapped array is a view of [m], so the assignment clears, in
    [m] itself, every cell whose index along axis [ax] lies in the slice. *)
Definition clear_axis_slice (ax : nat) (lo hi : option Z) (m : ndarray bool)
  : ndarray bool :=
  mk_nd (shape m)
    (imap (fun f v =>
       if in_slice (nth ax (shape m) 0%nat) lo hi (nth ax (unravel (shape m) f) 0%nat)
       then false else v) (buf m)).

(** Lines 34-39:
<<
    if border_width is not None:
        for i in range(peak_goodmask.ndim):
            peak_goodmask = peak_goodmask.swapaxes(0, i)
            peak_goodmask[:border_width] = False
            peak_goodmask[-border_width:] = False
            peak_goodmask = peak_goodmask.swapaxes(0, i)
>> *)
Definition border_step (border_width : Z) (m : ndarray bool) : ndarray bool :=
  fold_left (fun pm i =>
      let pm := clear_axis_slice i None (Some border_width) pm in
      clear_axis_slice i (Some (- border_width)) None pm)
    (seq 0 (ndim m)) m.

(** One iteration of the loop body, on axis [i]. *)
Definition border_axis_step (b : Z) (pm : ndarray bool) (i : nat) : ndarray bool :=
  clear_axis_slice i (Some (- b)) None (clear_axis_slice i None (Some b) pm).

Definition apply_border (border_width : option Z) (m : ndarray bool) : ndarray bool :=
  match border_width with
  | Some b => border_step b m
  | None => m
  end.

(* ================================================================= *)
(** ** Exceptions *)

Inductive pyerr :=
| ValueError (msg : string)
| RuntimeError (msg : string)
| TypeError (msg : string)
| ImportError (msg : string).

Inductive result (A : Type) := Ok (a : A) | Err (e : pyerr).
Arguments Ok {A} _.
Arguments Err {A} _.

Definition rbind {A B} (m : result A) (k : A -> result B) : result B :=
  match m with Ok a => k a | Err e => Err e end.

Notation "'let!' x := m 'in' k" := (rbind m (fun x => k))
  (at level 200, x name, m at level 100, k at level 200).

(* ================================================================= *)
(** ** scipy.ndimage.maximum_filter(..., mode='nearest') *)

(** Offsets of a window of [size] cells with origin 0: scipy centres it
    at [size // 2]; sizes below 2 leave the axis unfiltered. *)
Definition box_offsets (s : nat) : list Z :=
  map (fun k => Z.of_nat k - Z.of_nat (s / 2)) (seq 0 (Nat.max s 1)).

(** Cartesian product of per-axis offset lists. *)
Fixpoint cart (ls : list (list Z)) : list (list Z) :=
  match ls with
  | [] => [[]]
  | l :: ls' => flat_map (fun o => map (cons o) (cart ls')) l
  end.

(** Offsets selected by a footprint, relative to its centre [shape // 2]. *)
Definition footprint_offsets (fp : ndarray bool) : list (list Z) :=
  omap (fun '(f, b) =>
      if (b : bool) then
        Some (zip_with (fun i n => Z.of_nat i - Z.of_nat (n / 2))
                (unravel (shape fp) f) (shape fp))
      else None)
    (zip (seq 0 (length (buf fp))) (buf fp)).

(** mode='nearest': an index outside [0, n) reads the nearest edge cell. *)
Definition clampi (n : nat) (i : nat) (o : Z) : nat :=
  Z.to_nat (Z.max 0 (Z.min (Z.of_nat n - 1) (Z.of_nat i + o))).

Fixpoint shift (sh ix : list nat) (off : list Z) : list nat :=
  match sh, ix, off with
  | n :: sh', i :: ix', o :: off' => clampi n i o :: shift sh' ix' off'
  | _, _, _ => []
  end.

Definition nd_get (a : ndarray fval) (ix : list nat) : fval :=
  nth (ravel (shape a) ix) (buf a) NaN.

Definition fmax_list (l : list fval) : fval :=
  match l with [] => NaN | x :: r => fold_left fmax r x end.

Definition max_over (a : ndarray fval) (offs : list (list Z)) : ndarray fval :=
  mk_nd (shape a)
    (imap (fun f _ =>
       fmax_list (map (fun o => nd_get a (shift (shape a) (unravel (shape a) f) o)) offs))
     (buf a)).

(** Lines 21-24. With a footprint, scipy first refuses an all-False one,
    then one whose rank differs from the data's (an all-True footprint
    goes through the size path, which refuses a wrong rank as well). *)
Definition maximum_filter (data : ndarray fval) (box_size : nat)
    (footprint : option (ndarray bool)) : result (ndarray fval) :=
  match footprint with
  | Some fp =>
      if negb (existsb id (buf fp)) then Err (ValueError "All-zero footprint is not supported.")
      else if negb (Nat.eqb (ndim fp) (ndim data))
      then Err (RuntimeError "footprint array has incorrect shape.")
      else Ok (max_over data (footprint_offsets fp))
  | None => Ok (max_over data (cart (repeat (box_offsets box_size) (ndim data))))
  end.

(* ================================================================= *)
(** ** Candidate mask, external mask, threshold, extraction *)

(** Line 26: [peak_goodmask = (data == data_max)]. *)
Definition candidate_mask (data data_max : ndarray fval) : ndarray bool :=
  nd_zip feq data data_max.

Definition list_eqb (l1 l2 : list nat) : bool :=
  bool_decide (l1 = l2).

(** Lines 28-32. *)
Definition apply_mask (data : ndarray fval) (pg : ndarray bool)
    (mask : option (ndarray bool)) : result (ndarray bool) :=
  match mask with
  | None => Ok pg
  | Some m =>
      if negb (list_eqb (shape data) (shape m))
      then Err (ValueError "data and mask must have the same shape")
      else Ok (nd_zip (fun g k => g && negb k) pg m)
  end.

(** Line 41: [np.logical_and(peak_goodmask, (data > threshold))]. *)
Definition threshold_step (data : ndarray fval) (threshold : fval) (pg : ndarray bool)
  : ndarray bool :=
  nd_zip andb pg (nd_map (fun v => flt threshold v) data).

(** Flat indices of the True cells, in row-major order ([nonzero]). *)
Definition true_positions (m : ndarray bool) : list nat :=
  omap (fun '(f, b) => if (b : bool) then Some f else None)
    (zip (seq 0 (length (buf m))) (buf m)).

(** Line 43: [z_peaks, y_peaks, x_peaks = peak_goodmask.nonzero()]:
    [nonzero] yields one index array per axis, and the unpacking into
    three names fails unless there are exactly three. *)
Definition nonzero3 (m : ndarray bool) : result (list nat * list nat * list nat) :=
  if Nat.eqb (ndim m) 3 then
    let ixs := map (unravel (shape m)) (true_positions m) in
    Ok (map (fun ix => nth 0 ix 0%nat) ixs,
        map (fun ix => nth 1 ix 0%nat) ixs,
        map (fun ix => nth 2 ix 0%nat) ixs)
  else Err (ValueError "wrong number of values to unpack (expected 3)").


(** Line 44: [data[z_peaks, y_peaks, x_peaks]]. *)
Definition gather3 (data : ndarray fval) (z y x : list nat) : list fval :=
  zip_with (fun k ji => nd_get data [k; fst ji; snd ji]) z (zip y x).

(* ================================================================= *)
(** ** Truncation to [npeaks] (lines 46-52) *)

(** [np.argsort] with its default kind (an introsort).  numpy guarantees
    only that it returns the indices of the values in ascending order:
    how it orders equal values depends on the input size and on the
    machine (an insertion sort on ranges of at most 16 items, quicksort
    partitions on longer ones, and SIMD sorting kernels where the CPU has
    them).  The model takes it as a parameter [argsort]; [argsort_sorts]
    is numpy's guarantee: a permutation of the indices that lists
    NaN-free values in ascending order. *)
Definition argsort_sorts (argsort : list fval -> list nat) : Prop :=
  forall pv : list fval,
    Permutation (argsort pv) (seq 0 (length pv)) /\
    (Forall (fun v => isnan v = false) pv ->
     StronglySorted (fun i j => fle (nth i pv NaN) (nth j pv NaN) = true) (argsort pv)).

(** One such order: numpy's insertion sort on a range of at most 16
    items, which moves an element left only past strictly greater ones,
    so tied values stay in their original order. *)
Fixpoint insert_by (p : nat * fval) (l : list (nat * fval)) : list (nat * fval) :=
  match l with
  | [] => [p]
  | q :: r => if flt (snd p) (snd q) then p :: q :: r else q :: insert_by p r
  end.

Definition argsort_small (pv : list fval) : list nat :=
  map fst (fold_left (fun acc p => insert_by p acc) (zip (seq 0 (length pv)) pv) []).

(** [idx = np.argsort(peak_values)[::-1][:npeaks]] *)
Definition select_idx (argsort : list fval -> list nat) (npeaks : nat) (pv : list fval)
  : list nat :=
  take npeaks (reverse (argsort pv)).

(** The order [argsort_small] leaves its (index, value) pairs in, read
    ascending: by value, ties by index. *)
Definition argsort_order (p q : nat * fval) : Prop :=
  fle (snd p) (snd q) = true /\ (feq (snd p) (snd q) = true -> (fst p < fst q)%nat).

Definition take_at {A} (d : A) (l : list A) (idx : list nat) : list A :=
  map (fun i => nth i l d) idx.

(** [npeaks = None] stands for the default [np.inf]. *)
Definition truncate (argsort : list fval -> list nat)
    (npeaks : option nat) (z y x : list nat) (pv : list fval)
  : list nat * list nat * list nat * list fval :=
  match npeaks with
  | Some k =>
      if (k <? length x)%nat then
        let idx := select_idx argsort k pv in
        (take_at 0%nat z idx, take_at 0%nat y idx, take_at 0%nat x idx, take_at NaN pv idx)
      else (z, y, x, pv)
  | None => (z, y, x, pv)
  end.

(* ================================================================= *)
(** ** The output table *)

(** The object store: arrays by address. *)
Abbreviation heap := (list (ndarray fval)).

Section FindPeaks.

(** World coordinates produced by a WCS (astropy [SkyCoord]). *)
Variable Sky : Type.
(** Python objects passed as [centroid_func], and [callable]. *)
Variable PyObj : Type.
Variable callable : PyObj -> bool.
(** Line 66, [from ..centroids import centroid_sources]: the outcome of
    the import.  In the photutils package the script was taken from it
    yields [photutils.centroids.centroid_sources], an external
    collaborator; in this repository the module has no parent package
    and there is no [centroids] module, so the import raises an
    [ImportError]. *)
Variable centroid_sources :
  result (ndarray fval -> list fval -> list fval -> nat -> option (ndarray bool) ->
          option (ndarray fval) -> option (ndarray bool) -> PyObj ->
          result (list fval * list fval)).
(** [np.argsort] (see [argsort_sorts]). *)
Variable argsort : list fval -> list nat.

(** A WCS object is modelled by its [pixel_to_world] method. *)
Definition wcs_t : Type := list fval -> list fval -> result (list Sky).

Inductive column :=
| IntCol (l : list nat)
| FloatCol (l : list fval)
| SkyCol (l : list Sky).

(** A [QTable]: named columns in display order. *)
Definition table : Type := list (string * column).

Definition colnames (t : table) : list string := map fst t.

(** [table.add_column(col, name=name, index=i)]: insert before position [i]. *)
Definition add_column (t : table) (name : string) (c : column) (i : nat) : table :=
  take i t ++ (name, c) :: drop i t.

(** [table[name] = col]: replace an existing column, else append one. *)
Definition set_column (t : table) (name : string) (c : column) : table :=
  if bool_decide (name ∈ colnames t)
  then map (fun nc => if bool_decide (fst nc = name) then (name, c) else nc) t
  else t ++ [(name, c)].

(** [list.index]: position of the first occurrence. *)
Fixpoint index_of (s : string) (l : list string) : nat :=
  match l with
  | [] => 0%nat
  | s' :: l' => if bool_decide (s = s') then 0%nat else S (index_of s l')
  end.

Definition as_float (l : list nat) : list fval := map (fun n => Fin (Z.of_nat n)) l.

(** Lines 54-83, after the peak arrays have been computed. *)
Definition build_table (data : ndarray fval) (z y x : list nat) (pv : list fval)
    (box_size : nat) (footprint : option (ndarray bool)) (mask : option (ndarray bool))
    (centroid_func : option PyObj) (error : option (ndarray fval)) (wcs : option wcs_t)
  : result table :=
  let t0 := [("z_peak", IntCol z); ("y_peak", IntCol y);
             ("x_peak", IntCol x); ("peak_value", FloatCol pv)] in
  let! t1 := match wcs with
             | None => Ok t0
             | Some w =>
                 let! sk := w (as_float x) (as_float y) in
                 Ok (add_column t0 "skycoord_peak" (SkyCol sk) 2)
             end in
  match centroid_func with
  | None => Ok t1
  | Some cf =>
      let! centroid_sources := centroid_sources in
      if negb (callable cf) then Err (TypeError "centroid_func must be a callable object")
      else
        let! xy := centroid_sources data (as_float x) (as_float y) box_size
                     footprint error mask cf in
        let t2 := set_column (set_column t1 "x_centroid" (FloatCol (fst xy)))
                    "y_centroid" (FloatCol (snd xy)) in
        match wcs with
        | None => Ok t2
        | Some w =>
            let! sk := w (fst xy) (snd xy) in
            Ok (add_column t2 "skycoord_centroid" (SkyCol sk)
                  (S (index_of "y_centroid" (colnames t2))))
        end
  end.

(* ================================================================= *)
(** ** [find_peaks] on the (sanitised) data array *)

(** Lines 21-41: the candidate mask narrowed by the mask, the border and
    the threshold. *)
Definition peak_goodmask (data : ndarray fval) (threshold : fval) (box_size : nat)
    (footprint mask : option (ndarray bool)) (border_width : option Z)
  : result (ndarray bool) :=
  let! data_max := maximum_filter data box_size footprint in
  let pg := candidate_mask data data_max in
  let! pg := apply_mask data pg mask in
  let pg := apply_border border_width pg in
  Ok (threshold_step data threshold pg).

Definition find_peaks_on (data : ndarray fval) (threshold : fval) (box_size : nat)
    (footprint : option (ndarray bool)) (mask : option (ndarray bool))
    (border_width : option Z) (npeaks : option nat) (centroid_func : option PyObj)
    (error : option (ndarray fval)) (wcs : option wcs_t) : result table :=
  let! pg := peak_goodmask data threshold box_size footprint mask border_width in
  let! zyx := nonzero3 pg in
  let '(z, y, x) := zyx in
  let pv := gather3 data z y x in
  let '(z, y, x, pv) := truncate argsort npeaks z y x pv in
  build_table data z y x pv box_size footprint mask centroid_func error wcs.

(* ================================================================= *)
(** ** The NaN preprocessing and the object store *)

(** Arrays live in a store ([heap], defined before the section); a
    Python reference to an array is an address.  [np.asanyarray(data)] on
    an ndarray returns the same object, so [data] starts as the caller's
    reference. *)

(** Lines 13-19: on a NaN, [np.copy] allocates a new array, and the
    assignment [data[nan_mask] = np.nanmin(data)] writes into the copy. *)
Definition sanitize (h : heap) (a : nat) : option (heap * nat) :=
  match h !! a with
  | None => None
  | Some d =>
      let nan_mask := map isnan (buf d) in
      if existsb id nan_mask then
        let a' := length h in
        let h1 := h ++ [d] in
        let m := nanmin (buf d) in
        let d' := mk_nd (shape d) (zip_with (fun v b => if (b : bool) then m else v)
                                      (buf d) nan_mask) in
        Some (<[a' := d']> h1, a')
      else Some (h, a)
  end.

(** The working array of lines 13-19 as a value: NaNs replaced by
    [nanmin] (an array without NaN is left as it is). *)
Definition nan_sanitized (d : ndarray fval) : ndarray fval :=
  mk_nd (shape d) (map (fun v => if isnan v then nanmin (buf d) else v) (buf d)).

(** [find_peaks(data, threshold, box_size, footprint, mask, border_width,
    npeaks, centroid_func, error, wcs)], with [data] the array at address
    [a]; it returns the result and the store afterwards.  A dangling
    address cannot arise from Python and is reported as an error. *)
Definition find_peaks (h : heap) (a : nat) (threshold : fval) (box_size : nat)
    (footprint : option (ndarray bool)) (mask : option (ndarray bool))
    (border_width : option Z) (npeaks : option nat) (centroid_func : option PyObj)
    (error : option (ndarray fval)) (wcs : option wcs_t) : result table * heap :=
  match sanitize h a with
  | None => (Err (RuntimeError "invalid reference"), h)
  | Some (h', d) =>
      match h' !! d with
      | None => (Err (RuntimeError "invalid reference"), h')
      | Some data =>
          (find_peaks_on data threshold box_size footprint mask border_width npeaks
             centroid_func error wcs, h')
      end
  end.

End FindPeaks.

Arguments IntCol {Sky} _.
Arguments FloatCol {Sky} _.
Arguments SkyCol {Sky} _.
Arguments colnames {Sky} _.
Arguments add_column {Sky} _ _ _ _.
Arguments set_column {Sky} _ _ _.
Arguments build_table {Sky PyObj} _ _ _ _ _ _ _ _ _ _ _ _ _.
Arguments find_peaks_on {Sky PyObj} _ _ _ _ _ _ _ _ _ _ _ _ _.
Arguments find_peaks {Sky PyObj} _ _ _ _ _ _ _ _ _ _ _ _ _ _.

(* ================================================================= *)
(** ** cube_utils.freq_smooth *)

Section FreqSmooth.

(** Sample type of the cube, with numpy's addition and zero. *)
Variable F : Type.
Variable fadd : F -> F -> F.
Variable fzero : F.
(** The [smooth] argument (a Gaussian sigma), its Python truthiness, and
    [convolve(spectrum, Gaussian1DKernel(smooth))] from astropy. *)
Variable Sigma : Type.
Variable sigma_truthy : Sigma -> bool.
Variable gauss_convolve : list F -> Sigma -> list F.
(** The conversion of a value into the cube's dtype, as numpy applies it
    when a float64 result is written into an array of that dtype: the
    identity for a float64 cube, truncation toward zero for an integer
    cube, rounding to nearest for a float32 cube. *)
Variable astype : F -> F.

(** A cube of shape [(length planes, n1, n2)]: one flat row-major plane
    of [n1 * n2] samples per frequency channel. *)
Record cube := mk_cube { n1 : nat; n2 : nat; planes : list (list F) }.

(** [np.sum(slab, axis=0)]: numpy adds the slices of the slab in order;
    an empty slab sums to zeros. *)
Definition plane_add (a b : list F) : list F := zip_with fadd a b.

Definition sum_axis0 (npix : nat) (slab : list (list F)) : list F :=
  match slab with
  | [] => repeat fzero npix
  | s :: rest => fold_left plane_add rest s
  end.

(** [cube[lo:hi]] along axis 0, for [0 <= lo]. *)
Definition slab (c : cube) (lo hi : Z) : list (list F) :=
  take (Z.to_nat hi - Z.to_nat lo) (drop (Z.to_nat lo) (planes c)).

(** Lines 11-14.  [np.zeros] refuses a negative length. *)
Definition bin_cube (c : cube) (bin_size : Z) : option cube :=
  let nfreq := Z.of_nat (length (planes c)) / bin_size in
  if nfreq <? 0 then None
  else Some (mk_cube (n1 c) (n2 c)
    (map (fun freq => sum_axis0 (n1 c * n2 c)
                        (slab c (Z.of_nat freq * bin_size) ((Z.of_nat freq + 1) * bin_size)))
         (seq 0 (Z.to_nat nfreq)))).

(** [cube[:, i, j]] for the flat pixel [p = i * n2 + j]. *)
Definition spectrum (c : cube) (p : nat) : list F :=
  map (fun pl => nth p pl fzero) (planes c).

(** Lines 16-20: each spectrum is convolved, and written back into
    [np.zeros_like(cube)], which has the cube's dtype: the assignment
    converts every convolved value into it. *)
Definition smooth_cube (c : cube) (smooth : Sigma) : cube :=
  mk_cube (n1 c) (n2 c)
    (map (fun f => map (fun p => astype (nth f (gauss_convolve (spectrum c p) smooth) fzero))
                     (seq 0 (n1 c * n2 c)))
         (seq 0 (length (planes c)))).

(** [freq_smooth(cube, bin_size=0, smooth=0)]; [None] is the
    [ValueError] of [np.zeros] for a negative length. *)
Definition freq_smooth (c : cube) (bin_size : Z) (smooth : Sigma) : option cube :=
  if negb (bin_size =? 0) then bin_cube c bin_size
  else if sigma_truthy smooth then Some (smooth_cube c smooth)
  else Some c.

End FreqSmooth.

(* ================================================================= *)
(** ** Reading a result table *)

(** [table[name]]: the first column of that name. *)
Fixpoint col_of {Sky} (t : table Sky) (name : string) : option (column Sky) :=
  match t with
  | [] => None
  | (n, c) :: r => if String.eqb n name then Some c else col_of r name
  end.

(** Row [i] of the peak columns: [(z_peak, y_peak, x_peak, peak_value)]. *)
Definition row_of {Sky} (t : table Sky) (i : nat) : option (nat * nat * nat * fval) :=
  match col_of t "z_peak", col_of t "y_peak", col_of t "x_peak", col_of t "peak_value" with
  | Some (IntCol zs), Some (IntCol ys), Some (IntCol xs), Some (FloatCol pv) =>
      match zs !! i, ys !! i, xs !! i, pv !! i with
      | Some z, Some y, Some x, Some v => Some (z, y, x, v)
      | _, _, _, _ => None
      end
  | _, _, _, _ => None
  end%string.

(* ================================================================= *)
(** ** cube_utils.extend *)

Section Extend.

(** [make_2dgaussian_kernel(fwhm, size)] (photutils) and astropy's
    [convolve] on a 2-D image: external collaborators. *)
Variable Kernel : Type.
Variable make_2dgaussian_kernel : Z -> Z -> result Kernel.
Variable convolve2d : ndarray fval -> Kernel -> ndarray fval.

(** [np.zeros(dims)]: refuses a negative dimension. *)
Definition zeros (dims : list Z) : result (ndarray fval) :=
  if existsb (fun n => n <? 0) dims
  then Err (ValueError "negative dimensions are not allowed")
  else let sh := map Z.to_nat dims in Ok (mk_nd sh (repeat (Fin 0) (size sh))).

(** [a[lead..., lo0:hi0, lo1:hi1] = v], with [lead] the leading integer
    indices (none for a 2-D [a], [zz] for a 3-D one). *)
Definition assign_block (a : ndarray fval) (lead : list nat) (lo0 hi0 lo1 hi1 : Z)
    (v : fval) : ndarray fval :=
  let k := length lead in
  mk_nd (shape a)
    (imap (fun g old =>
       let ix := unravel (shape a) g in
       if list_eqb (take k ix) lead
          && in_slice (nth k (shape a) 0%nat) (Some lo0) (Some hi0) (nth k ix 0%nat)
          && in_slice (nth (S k) (shape a) 0%nat) (Some lo1) (Some hi1) (nth (S k) ix 0%nat)
       then v else old) (buf a)).

(** Lines 34-40: the loops over [i], [j] (and [zz]). *)
Definition extend_fill (array out : ndarray fval) (num : Z) : ndarray fval :=
  let sh := shape array in
  let dim := length sh in
  fold_left (fun o i =>
    fold_left (fun o j =>
      let lo0 := Z.of_nat i * num in
      let hi0 := (Z.of_nat i + 1) * num in
      let lo1 := Z.of_nat j * num in
      let hi1 := (Z.of_nat j + 1) * num in
      if Nat.eqb dim 3 then
        fold_left (fun o zz => assign_block o [zz] lo0 hi0 lo1 hi1 (nd_get array [zz; i; j]))
          (seq 0 (nth 0 sh 0%nat)) o
      else if Nat.eqb dim 2 then assign_block o [] lo0 hi0 lo1 hi1 (nd_get array [i; j])
      else o)
      (seq 0 (nth (dim - 1) sh 0%nat)) o)
    (seq 0 (nth (dim - 2) sh 0%nat)) out.

(** [a[k]] of a 3-D array, and [a[k] = p]; astropy's [convolve] returns
    an array of its input's shape, which is what the assignment needs. *)
Definition plane (a : ndarray fval) (k : nat) : ndarray fval :=
  let sh' := tail (shape a) in
  mk_nd sh' (take (size sh') (drop (k * size sh') (buf a))).

Definition set_plane (a : ndarray fval) (k : nat) (p : ndarray fval) : result (ndarray fval) :=
  let sh' := tail (shape a) in
  if list_eqb (shape p) sh'
  then Ok (mk_nd (shape a)
             (take (k * size sh') (buf a) ++ buf p ++ drop (S k * size sh') (buf a)))
  else Err (ValueError "could not broadcast input array").

(** [extend(array, num=1, smooth=False)]. *)
Definition extend (array : ndarray fval) (num : Z) (smooth : bool) : result (ndarray fval) :=
  let sh := map Z.of_nat (shape array) in
  let dim := length (shape array) in
  let! out := if Nat.eqb dim 3 then zeros [nth 0 sh 0; num * nth 1 sh 0; num * nth 2 sh 0]
              else if Nat.eqb dim 2 then zeros [num * nth 0 sh 0; num * nth 1 sh 0]
              else Err (ValueError "Dimension must be 2 or 3.") in
  let out := extend_fill array out num in
  if smooth then
    let! kernel2d := make_2dgaussian_kernel num (4 * num + 1) in
    if Nat.eqb dim 2 then Ok (convolve2d out kernel2d)
    else if Nat.eqb dim 3 then
      fold_left (fun acc freq =>
          let! o := acc in set_plane o freq (convolve2d (plane o freq) kernel2d))
        (seq 0 (nth 0 (shape out) 0%nat)) (Ok out)
    else Ok out
  else Ok out.

(** One iteration of lines 46-47:
    [extend_array[freq] = convolve(extend_array[freq], kernel2d)]. *)
Definition smooth_step (kernel2d : Kernel) (acc : result (ndarray fval)) (freq : nat)
  : result (ndarray fval) :=
  let! o := acc in set_plane o freq (convolve2d (plane o freq) kernel2d).

End Extend.

(* ================================================================= *)
(** ** Concrete inputs *)

(** Collaborators for concrete runs: a unit sky type, every object
    callable, the import of line 66 resolved (as in the photutils
    package) to a centroider that returns the pixel guesses, and
    [argsort_small], the order numpy's insertion sort gives on the small
    candidate lists of these runs. *)
Definition centroid_guess : ndarray fval -> list fval -> list fval -> nat ->
    option (ndarray bool) -> option (ndarray fval) -> option (ndarray bool) -> unit ->
    result (list fval * list fval) :=
  fun _ x y _ _ _ _ _ => Ok (x, y).

Definition wcs_unit : wcs_t unit := fun x _ => Ok (map (fun _ => tt) x).

Definition find_peaks_u := @find_peaks unit unit (fun _ => true) (Ok centroid_guess) argsort_small.

(** Line 66 in this repository: the module has no parent package (and
    there is no [centroids] module), so the relative import fails. *)
Definition centroid_import_repo {PyObj : Type} :
  result (ndarray fval -> list fval -> list fval -> nat -> option (ndarray bool) ->
          option (ndarray fval) -> option (ndarray bool) -> PyObj ->
          result (list fval * list fval)) :=
  Err (ImportError "attempted relative import with no known parent package").

(** 5x5x5 zeros with [field[2,2,2] = 10]. *)
Definition cube5 : ndarray fval :=
  mk_nd [5; 5; 5]%nat
    (map (fun f => if Nat.eqb f 62 then Fin 10 else Fin 0) (seq 0 125)).

(** A 1x1x3 field with two equal maxima at x = 0 and x = 2. *)
Definition field_5_1_5 : ndarray fval := mk_nd [1; 1; 3]%nat [Fin 5; Fin 1; Fin 5].

(** A 1x1x2 field whose first cell is NaN. *)
Definition field_nan : ndarray fval := mk_nd [1; 1; 2]%nat [NaN; Fin 1].

Definition all_true (sh : list nat) : ndarray bool := mk_nd sh (repeat true (size sh)).

Definition empty_peaks : table unit :=
  [("z_peak", IntCol []); ("y_peak", IntCol []);
   ("x_peak", IntCol []); ("peak_value", FloatCol [])].

(** A 1x1 cube of five channels, with integer samples and the identity
    as convolution. *)
Definition cube_z5 : cube Z := mk_cube Z 1 1 [[1]; [2]; [3]; [4]; [5]].

Definition z_truthy (z : Z) : bool := negb (z =? 0).

Definition id_convolve (l : list Z) (_ : Z) : list Z := l.

(** Arrays for [extend]: a 2x2x2 cube, a 2x3 image and a rank-1 array. *)
Definition ext_arr3 : ndarray fval :=
  mk_nd [2; 2; 2]%nat (map (fun k => Fin (Z.of_nat k)) (seq 0 8)).
Definition ext_arr2 : ndarray fval :=
  mk_nd [2; 3]%nat (map (fun k => Fin (Z.of_nat k)) (seq 0 6)).
Definition ext_arr1 : ndarray fval := mk_nd [4]%nat (repeat (Fin 1) 4).

(** Result tables and inputs of concrete [find_peaks] runs. *)
Definition peaks_cube5 : table unit :=
  [("z_peak", IntCol [2%nat]); ("y_peak", IntCol [2%nat]);
   ("x_peak", IntCol [2%nat]); ("peak_value", FloatCol [Fin 10])].

Definition peaks_5_1_5 : table unit :=
  [("z_peak", IntCol [0%nat; 0%nat]); ("y_peak", IntCol [0%nat; 0%nat]);
   ("x_peak", IntCol [0%nat; 2%nat]); ("peak_value", FloatCol [Fin 5; Fin 5])].

Definition mask_x0 : ndarray bool := mk_nd [1; 1; 3]%nat [true; false; false].

Definition peaks_x2 : table unit :=
  [("z_peak", IntCol [0%nat]); ("y_peak", IntCol [0%nat]);
   ("x_peak", IntCol [2%nat]); ("peak_value", FloatCol [Fin 5])].

(** A shape-preserving stand-in for astropy's [convolve], and the
    unsmoothed [extend] of the 2x2x2 cube. *)
Definition clip3 (p : ndarray fval) (_ : unit) : ndarray fval := nd_map (fun v => fmax v (Fin 3)) p.

Definition result_or {A} (r : result A) (d : A) : A :=
  match r with Ok a => a | Err _ => d end.

Definition ext_out3 : ndarray fval :=
  result_or (extend unit (fun _ _ => Ok tt) clip3 ext_arr3 2 false) ext_arr3.

(* ================================================================= *)
(** * Properties *)

(** Border exclusion for a positive width: a cell is cleared exactly
    when one of its indices lies in [0, b) or [n - b, n). *)
Definition in_border (b : Z) (n i : nat) : bool :=
  (Z.of_nat i <? b) || (Z.of_nat n - b <=? Z.of_nat i).

Definition border_keeps (b : Z) (sh ix : list nat) : bool :=
  forallb (fun ax => negb (in_border b (nth ax sh 0%nat) (nth ax ix 0%nat)))
    (seq 0 (length sh)).

(** The cells a window of [s] cells covers along one axis around index
    [c]: scipy centres it at [s // 2], and a size below 2 covers [c] only. *)
Definition in_window (s c c' : nat) : Prop :=
  Z.of_nat c - Z.of_nat (s / 2) <= Z.of_nat c' < Z.of_nat c - Z.of_nat (s / 2) + Z.of_nat (Nat.max s 1).

(* ----------------------------------------------------------------- *)
(** ** Index arithmetic *)

Lemma size_cons (n : nat) (sh : list nat) : size (n :: sh) = (n * size sh)%nat.
Proof. reflexivity. Qed.

Lemma unravel_length (sh : list nat) (f : nat) : length (unravel sh f) = length sh.
Proof.
  revert f; induction sh as [|n sh IH]; intros f; simpl; [done|]. by rewrite IH.
Qed.

Lemma unravel_lt (sh : list nat) (f ax : nat) :
  (f < size sh)%nat -> (ax < length sh)%nat ->
  (nth ax (unravel sh f) 0 < nth ax sh 0)%nat.
Proof.
  revert f ax; induction sh as [|n sh IH]; intros f ax Hf Hax; simpl in *; [lia|].
  assert (size sh <> 0%nat) as Hs.
  { intros E. rewrite E in Hf. lia. }
  destruct ax as [|ax].
  - apply Nat.Div0.div_lt_upper_bound. lia.
  - apply IH; [apply Nat.mod_upper_bound; done | lia].
Qed.

Lemma forallb_ext_in {A} (g g' : A -> bool) (l : list A) :
  (forall x, In x l -> g x = g' x) -> forallb g l = forallb g' l.
Proof.
  induction l as [|x l IH]; intros H; simpl; [done|].
  rewrite (H x (or_introl eq_refl)), IH; [done|]. intros y Hy. apply H. by right.
Qed.

(* ----------------------------------------------------------------- *)
(** ** Border step *)

Lemma clear_axis_slice_shape ax lo hi (m : ndarray bool) :
  shape (clear_axis_slice ax lo hi m) = shape m.
Proof. reflexivity. Qed.

Lemma clear_axis_slice_lookup ax lo hi (m : ndarray bool) (f : nat) (v : bool) :
  buf m !! f = Some v ->
  buf (clear_axis_slice ax lo hi m) !! f =
  Some (v && negb (in_slice (nth ax (shape m) 0%nat) lo hi (nth ax (unravel (shape m) f) 0%nat))).
Proof.
  intros H. unfold clear_axis_slice; simpl. rewrite list_lookup_imap, H; simpl.
  by destruct (in_slice _ _ _ _), v.
Qed.

Lemma border_fold_shape (b : Z) (L : list nat) (m : ndarray bool) :
  shape (fold_left (border_axis_step b) L m) = shape m.
Proof. revert m; induction L as [|i L IH]; intros m; simpl; [done|]. by rewrite IH. Qed.

Lemma border_fold_lookup (b : Z) (L : list nat) (m : ndarray bool) (f : nat) (v : bool) :
  buf m !! f = Some v ->
  buf (fold_left (border_axis_step b) L m) !! f =
  Some (v && forallb (fun ax =>
     negb (in_slice (nth ax (shape m) 0%nat) None (Some b) (nth ax (unravel (shape m) f) 0%nat))
     && negb (in_slice (nth ax (shape m) 0%nat) (Some (- b)) None
                (nth ax (unravel (shape m) f) 0%nat))) L).
Proof.
  revert m v; induction L as [|i L IH]; intros m v H; simpl.
  - by rewrite H, andb_true_r.
  - rewrite (IH _ (v && negb (in_slice (nth i (shape m) 0%nat) None (Some b)
                          (nth i (unravel (shape m) f) 0%nat))
                   && negb (in_slice (nth i (shape m) 0%nat) (Some (- b)) None
                          (nth i (unravel (shape m) f) 0%nat)))).
    + f_equal. unfold border_axis_step. simpl. by rewrite !andb_assoc.
    + unfold border_axis_step.
      rewrite (clear_axis_slice_lookup _ _ _ _ _
                 (v && negb (in_slice (nth i (shape m) 0%nat) None (Some b)
                          (nth i (unravel (shape m) f) 0%nat)))).
      * done.
      * by apply clear_axis_slice_lookup.
Qed.

Lemma border_slices_positive (b : Z) (n i : nat) :
  0 < b -> (i < n)%nat ->
  negb (in_slice n None (Some b) i) && negb (in_slice n (Some (- b)) None i) =
  negb (in_border b n i).
Proof.
  intros Hb Hi. unfold in_slice, slice_norm, in_border.
  destruct (Z.ltb_spec b 0); [lia|].
  destruct (Z.ltb_spec (- b) 0); [|lia].
  destruct (Z.leb_spec 0 (Z.of_nat i)); [|lia].
  destruct (Z.ltb_spec (Z.of_nat i) (Z.of_nat n)); [|lia].
  destruct (Z.ltb_spec (Z.of_nat i) (Z.min b (Z.of_nat n)));
  destruct (Z.leb_spec (Z.max 0 (- b + Z.of_nat n)) (Z.of_nat i));
  destruct (Z.ltb_spec (Z.of_nat i) b);
  destruct (Z.leb_spec (Z.of_nat n - b) (Z.of_nat i)); simpl; try done; lia.
Qed.

(** For [border_width = b > 0] the border step clears exactly the cells
    with an index in [0, b) or [n - b, n) on some axis. *)
Lemma border_step_positive_exact (b : Z) (m : ndarray bool) (f : nat) (v : bool) :
  0 < b -> length (buf m) = size (shape m) -> buf m !! f = Some v ->
  buf (border_step b m) !! f = Some (v && border_keeps b (shape m) (unravel (shape m) f)).
Proof.
  intros Hb Hlen Hf.
  assert (f < size (shape m))%nat as Hfs.
  { rewrite <- Hlen. by eapply lookup_lt_Some. }
  unfold border_step. fold (border_axis_step b).
  rewrite (border_fold_lookup _ _ _ _ v Hf). f_equal. f_equal.
  unfold border_keeps. apply forallb_ext_in. intros ax Hax.
  apply in_seq in Hax.
  apply border_slices_positive; [done|]. apply unravel_lt; [done|]. unfold ndim in Hax. lia.
Qed.

(** C1 (border exclusion).  With [border_width = 0] the second slice
    [peak_goodmask[-0:]] is [peak_goodmask[0:]], the whole axis: every cell
    is cleared, instead of none.  On the 5x5x5 field with a single
    maximum at (2,2,2), [border_width = 0] loses that peak, which is
    found without a border width. *)
Theorem border_width_zero_clears_all :
  buf (border_step 0 (all_true [5; 5; 5]%nat)) = repeat false 125 /\
  fst (find_peaks_u [cube5] 0 (Fin 0) 3 None None (Some 0) None None None None)
    = Ok empty_peaks /\
  fst (find_peaks_u [cube5] 0 (Fin 0) 3 None None None None None None None)
    = Ok [("z_peak", IntCol [2%nat]); ("y_peak", IntCol [2%nat]);
          ("x_peak", IntCol [2%nat]); ("peak_value", FloatCol [Fin 10])].
Proof. split; [|split]; vm_compute; reflexivity. Qed.

(* ----------------------------------------------------------------- *)
(** ** freq_smooth *)

Lemma take_drop_map {A} (l : list A) (d : A) (start n : nat) :
  (start + n <= length l)%nat ->
  take n (drop start l) = map (fun j => nth j l d) (seq start n).
Proof.
  revert start n; induction l as [|x l IH]; intros start n H; simpl in H.
  - assert (n = 0%nat) as -> by lia. by rewrite take_0.
  - destruct start as [|start].
    + destruct n as [|n]; [done|]. simpl. f_equal.
      rewrite <- seq_shift, map_map. simpl.
      pose proof (IH 0%nat n ltac:(lia)) as E. rewrite drop_0 in E. by rewrite E.
    + simpl. rewrite (IH start n) by lia.
      rewrite <- seq_shift, map_map. done.
Qed.

Lemma nth_zip_with {A B C} (g : A -> B -> C) (l1 : list A) (l2 : list B)
    (d1 : A) (d2 : B) (d : C) (p : nat) :
  (p < length l1)%nat -> (p < length l2)%nat ->
  nth p (zip_with g l1 l2) d = g (nth p l1 d1) (nth p l2 d2).
Proof.
  revert l1 l2; induction p as [|p IH]; intros [|a l1] [|b l2] H1 H2; simpl in *;
    try lia; [done|]. apply IH; lia.
Qed.

Section FreqSmoothProps.
Variable F : Type.
Variable fadd : F -> F -> F.
Variable fzero : F.
Variable Sigma : Type.
Variable sigma_truthy : Sigma -> bool.
Variable gauss_convolve : list F -> Sigma -> list F.
Variable astype : F -> F.

Lemma fold_plane_add_nth (rest : list (list F)) (s : list F) (npix p : nat) :
  length s = npix -> Forall (fun pl => length pl = npix) rest -> (p < npix)%nat ->
  nth p (fold_left (plane_add F fadd) rest s) fzero =
  fold_left fadd (map (fun pl => nth p pl fzero) rest) (nth p s fzero).
Proof.
  revert s; induction rest as [|r rest IH]; intros s Hs Hrest Hp; simpl; [done|].
  inversion Hrest as [|? ? Hr Hrest']; subst.
  rewrite IH; [| |done|done].
  - f_equal. unfold plane_add. apply nth_zip_with; lia.
  - unfold plane_add. rewrite length_zip_with. lia.
Qed.

(** C10 (mode precedence of [freq_smooth]).  A nonzero [bin_size] bins,
    whatever [smooth] is; with [bin_size = 0] a truthy [smooth] smooths;
    with both falsy the cube is returned unchanged. *)
Theorem freq_smooth_modes (c : cube F) (bin_size : Z) (smooth : Sigma) :
  (bin_size <> 0 ->
     freq_smooth F fadd fzero Sigma sigma_truthy gauss_convolve astype c bin_size smooth
     = bin_cube F fadd fzero c bin_size) /\
  (bin_size = 0 -> sigma_truthy smooth = true ->
     freq_smooth F fadd fzero Sigma sigma_truthy gauss_convolve astype c bin_size smooth
     = Some (smooth_cube F fzero Sigma gauss_convolve astype c smooth)) /\
  (bin_size = 0 -> sigma_truthy smooth = false ->
     freq_smooth F fadd fzero Sigma sigma_truthy gauss_convolve astype c bin_size smooth = Some c).
Proof.
  unfold freq_smooth. split; [|split].
  - intros H. destruct (Z.eqb_spec bin_size 0); [done|]. reflexivity.
  - intros -> Hs. simpl. by rewrite Hs.
  - intros -> Hs. simpl. by rewrite Hs.
Qed.

(** C6 (binning).  For a positive [bin_size = b] and a cube whose planes
    all hold [n1 * n2] samples, the binned cube has [length / b] channels
    and channel [k] is the element-wise sum, in order, of the input
    channels [k*b] to [(k+1)*b - 1]; trailing channels that do not fill a
    group are dropped. *)
Theorem freq_smooth_binning (c : cube F) (b : nat) (smooth : Sigma) :
  (0 < b)%nat -> Forall (fun pl => length pl = (n1 F c * n2 F c)%nat) (planes F c) ->
  exists c',
    freq_smooth F fadd fzero Sigma sigma_truthy gauss_convolve astype c (Z.of_nat b) smooth
      = Some c' /\
    n1 F c' = n1 F c /\ n2 F c' = n2 F c /\
    length (planes F c') = (length (planes F c) / b)%nat /\
    forall k p, (k < length (planes F c) / b)%nat -> (p < n1 F c * n2 F c)%nat ->
      nth p (nth k (planes F c') []) fzero =
      fold_left fadd
        (map (fun j => nth p (nth j (planes F c) []) fzero) (seq (k * b + 1) (b - 1)))
        (nth p (nth (k * b) (planes F c) []) fzero).
Proof.
  intros Hb Hwf.
  set (len := length (planes F c)).
  assert (Z.of_nat len / Z.of_nat b = Z.of_nat (len / b)) as Hdiv.
  { by rewrite Nat2Z.inj_div. }
  unfold freq_smooth.
  destruct (Z.eqb_spec (Z.of_nat b) 0) as [E|_]; [lia|]. simpl.
  unfold bin_cube. fold len. rewrite Hdiv.
  destruct (Z.ltb_spec (Z.of_nat (len / b)) 0) as [E|_]; [lia|].
  rewrite Nat2Z.id.
  eexists; split; [reflexivity|]. simpl.
  split; [done|]. split; [done|].
  split; [by rewrite length_map, length_seq|].
  intros k p Hk Hp.
  assert ((k + 1) * b <= len)%nat as Hkb.
  { assert (b * (len / b) <= len)%nat by apply Nat.Div0.mul_div_le. nia. }
  rewrite (nth_indep _ [] (sum_axis0 F fadd fzero (n1 F c * n2 F c)
            (slab F c (Z.of_nat 0 * Z.of_nat b) ((Z.of_nat 0 + 1) * Z.of_nat b))))
    by (rewrite length_map, length_seq; lia).
  rewrite (map_nth (fun freq : nat => sum_axis0 F fadd fzero (n1 F c * n2 F c)
            (slab F c (Z.of_nat freq * Z.of_nat b) ((Z.of_nat freq + 1) * Z.of_nat b)))).
  rewrite seq_nth by done. simpl.
  unfold slab.
  replace (Z.to_nat ((Z.of_nat k + 1) * Z.of_nat b)) with ((k + 1) * b)%nat by lia.
  replace (Z.to_nat (Z.of_nat k * Z.of_nat b)) with (k * b)%nat by lia.
  replace ((k + 1) * b - k * b)%nat with b by lia.
  rewrite (take_drop_map _ [] (k * b) b) by (fold len; lia).
  destruct b as [|b']; [lia|]. simpl. replace (b' - 0)%nat with b' by lia.
  rewrite fold_plane_add_nth with (npix := (n1 F c * n2 F c)%nat).
  - rewrite map_map. replace (S (k * S b')) with (k * S b' + 1)%nat by lia. done.
  - rewrite List.Forall_forall in Hwf. apply Hwf. apply nth_In. fold len. lia.
  - rewrite List.Forall_forall in Hwf |- *. intros pl Hpl.
    apply in_map_iff in Hpl as (j & <- & Hj). apply in_seq in Hj.
    apply Hwf. apply nth_In. fold len. lia.
  - done.
Qed.

End FreqSmoothProps.

Lemma freq_smooth_modes_witness :
  ((1 <> 0)%Z -> freq_smooth Z Z.add 0 Z z_truthy id_convolve id cube_z5 1 7
                 = bin_cube Z Z.add 0 cube_z5 1) /\
  freq_smooth Z Z.add 0 Z z_truthy id_convolve id cube_z5 1 7 = Some cube_z5.
Proof.
  split.
  - apply (freq_smooth_modes Z Z.add 0 Z z_truthy id_convolve id cube_z5 1 7).
  - rewrite (proj1 (freq_smooth_modes Z Z.add 0 Z z_truthy id_convolve id cube_z5 1 7))
      by lia.
    reflexivity.
Defined.

Lemma freq_smooth_binning_witness :
  (0 < 2)%nat /\ Forall (fun pl => length pl = (n1 Z cube_z5 * n2 Z cube_z5)%nat)
                   (planes Z cube_z5) /\
  exists c',
    freq_smooth Z Z.add 0 Z z_truthy id_convolve id cube_z5 (Z.of_nat 2) 0 = Some c' /\
    n1 Z c' = n1 Z cube_z5 /\ n2 Z c' = n2 Z cube_z5 /\
    length (planes Z c') = (length (planes Z cube_z5) / 2)%nat /\
    forall k p, (k < length (planes Z cube_z5) / 2)%nat ->
      (p < n1 Z cube_z5 * n2 Z cube_z5)%nat ->
      nth p (nth k (planes Z c') []) 0 =
      fold_left Z.add
        (map (fun j => nth p (nth j (planes Z cube_z5) []) 0) (seq (k * 2 + 1) (2 - 1)))
        (nth p (nth (k * 2) (planes Z cube_z5) []) 0).
Proof.
  split; [lia|]. split; [repeat constructor|].
  apply (freq_smooth_binning Z Z.add 0 Z z_truthy id_convolve id cube_z5 2 0).
  - lia.
  - repeat constructor.
Defined.

(** The example of the specification: length 5, [bin_size = 2]. *)
Example freq_smooth_bin2_len5 :
  freq_smooth Z Z.add 0 Z z_truthy id_convolve id cube_z5 2 0
  = Some (mk_cube Z 1 1 [[3]; [7]]).
Proof. reflexivity. Qed.

(* ----------------------------------------------------------------- *)
(** ** Unfolding a successful run of find_peaks *)

Section Runs.
Context {Sky PyObj : Type} (callable : PyObj -> bool).
Context (centroid_sources : result (ndarray fval -> list fval -> list fval -> nat ->
  option (ndarray bool) -> option (ndarray fval) -> option (ndarray bool) -> PyObj ->
  result (list fval * list fval))).
Context (argsort : list fval -> list nat).

Lemma peak_goodmask_Ok_inv (data : ndarray fval) (threshold : fval) (box_size : nat)
    (footprint mask : option (ndarray bool)) (border_width : option Z) (m : ndarray bool) :
  peak_goodmask data threshold box_size footprint mask border_width = Ok m ->
  exists data_max pg0,
    maximum_filter data box_size footprint = Ok data_max /\
    apply_mask data (candidate_mask data data_max) mask = Ok pg0 /\
    m = threshold_step data threshold (apply_border border_width pg0).
Proof.
  unfold peak_goodmask.
  destruct (maximum_filter data box_size footprint) as [data_max|] eqn:Emf; simpl; [|done].
  destruct (apply_mask data (candidate_mask data data_max) mask) as [pg0|] eqn:Em;
    simpl; [|done].
  intros [= <-]. by exists data_max, pg0.
Qed.

Lemma find_peaks_on_Ok_inv (data : ndarray fval) (threshold : fval) (box_size : nat)
    (footprint mask : option (ndarray bool)) (border_width : option Z)
    (npeaks : option nat) (centroid_func : option PyObj) (error : option (ndarray fval))
    (wcs : option (wcs_t Sky)) (t : table Sky) :
  find_peaks_on callable centroid_sources argsort data threshold box_size footprint mask
    border_width npeaks centroid_func error wcs = Ok t ->
  exists pg z y x,
    peak_goodmask data threshold box_size footprint mask border_width = Ok pg /\
    nonzero3 pg = Ok (z, y, x) /\
    match truncate argsort npeaks z y x (gather3 data z y x) with
    | (z', y', x', pv') =>
        build_table callable centroid_sources data z' y' x' pv' box_size footprint mask
          centroid_func error wcs = Ok t
    end.
Proof.
  unfold find_peaks_on.
  destruct (peak_goodmask data threshold box_size footprint mask border_width)
    as [pg|] eqn:Epg; simpl; [|done].
  destruct (nonzero3 pg) as [[[z y] x]|] eqn:Enz; simpl; [|done].
  intros H. exists pg, z, y, x. split; [done|]. split; [done|].
  destruct (truncate argsort npeaks z y x (gather3 data z y x)) as [[[z' y'] x'] pv']. done.
Qed.

Lemma find_peaks_Ok_inv (h : heap) (a : nat) (threshold : fval) (box_size : nat)
    (footprint mask : option (ndarray bool)) (border_width : option Z)
    (npeaks : option nat) (centroid_func : option PyObj) (error : option (ndarray fval))
    (wcs : option (wcs_t Sky)) (t : table Sky) :
  fst (find_peaks callable centroid_sources argsort h a threshold box_size footprint mask
         border_width npeaks centroid_func error wcs) = Ok t ->
  exists h' d data,
    sanitize h a = Some (h', d) /\ h' !! d = Some data /\
    find_peaks_on callable centroid_sources argsort data threshold box_size footprint mask
      border_width npeaks centroid_func error wcs = Ok t.
Proof.
  unfold find_peaks.
  destruct (sanitize h a) as [[h' d]|]; simpl; [|done].
  destruct (h' !! d) as [data|] eqn:E; simpl; [|done].
  intros H. by exists h', d, data.
Qed.

(** The column names [build_table] produces, for each configuration. *)
Lemma build_table_colnames (data : ndarray fval) (z y x : list nat) (pv : list fval)
    (box_size : nat) (footprint mask : option (ndarray bool))
    (centroid_func : option PyObj) (error : option (ndarray fval))
    (wcs : option (wcs_t Sky)) (t : table Sky) :
  build_table callable centroid_sources data z y x pv box_size footprint mask
    centroid_func error wcs = Ok t ->
  colnames t =
  match wcs, centroid_func with
  | None, None => ["z_peak"; "y_peak"; "x_peak"; "peak_value"]
  | Some _, None => ["z_peak"; "y_peak"; "skycoord_peak"; "x_peak"; "peak_value"]
  | None, Some _ => ["z_peak"; "y_peak"; "x_peak"; "peak_value"; "x_centroid"; "y_centroid"]
  | Some _, Some _ => ["z_peak"; "y_peak"; "skycoord_peak"; "x_peak"; "peak_value";
                       "x_centroid"; "y_centroid"; "skycoord_centroid"]
  end%string.
Proof.
  unfold build_table.
  destruct wcs as [w|].
  - destruct (w (as_float x) (as_float y)) as [sk|]; simpl; [|done].
    destruct centroid_func as [cf|].
    + destruct centroid_sources as [cs|]; simpl; [|done].
      destruct (callable cf); simpl; [|done].
      destruct (cs _ _ _ _ _ _ _ _) as [[xc yc]|]; simpl; [|done].
      destruct (w xc yc) as [sk2|]; simpl; [|done].
      intros H. injection H as <-. vm_compute. reflexivity.
    + intros H. injection H as <-. reflexivity.
  - simpl. destruct centroid_func as [cf|].
    + destruct centroid_sources as [cs|]; simpl; [|done].
      destruct (callable cf); simpl; [|done].
      destruct (cs _ _ _ _ _ _ _ _) as [[xc yc]|]; simpl; [|done].
      intros H. injection H as <-. vm_compute. reflexivity.
    + intros H. injection H as <-. reflexivity.
Qed.

End Runs.

(** C3 (column order), counterexample.  With a WCS configured,
    [add_column(..., index=2)] puts [skycoord_peak] between [y_peak] and
    [x_peak], not after [peak_value]. *)
Lemma skycoord_peak_not_after_peak_value :
  exists t,
    fst (find_peaks_u [field_5_1_5] 0 (Fin 0) 1 None None None None None None
           (Some wcs_unit)) = Ok t /\
    colnames t = ["z_peak"; "y_peak"; "skycoord_peak"; "x_peak"; "peak_value"]%string.
Proof. eexists. split; vm_compute; reflexivity. Qed.

(** C3 (column order), as the code has it.  Leaving [skycoord_peak]
    aside, the columns are [z_peak, y_peak, x_peak, peak_value], then
    [x_centroid, y_centroid] when centroiding, then [skycoord_centroid]
    when centroiding with a WCS; [skycoord_peak] is present exactly when a
    WCS is configured, and then it comes before [peak_value]. *)
Theorem find_peaks_column_order {Sky PyObj : Type} (callable : PyObj -> bool)
    (centroid_sources : result (ndarray fval -> list fval -> list fval -> nat ->
       option (ndarray bool) -> option (ndarray fval) -> option (ndarray bool) -> PyObj ->
       result (list fval * list fval)))
    (argsort : list fval -> list nat)
    (h : heap) (a : nat) (threshold : fval) (box_size : nat)
    (footprint mask : option (ndarray bool)) (border_width : option Z)
    (npeaks : option nat) (centroid_func : option PyObj) (error : option (ndarray fval))
    (wcs : option (wcs_t Sky)) (t : table Sky) :
  fst (find_peaks callable centroid_sources argsort h a threshold box_size footprint mask
         border_width npeaks centroid_func error wcs) = Ok t ->
  filter (fun n => n <> "skycoord_peak"%string) (colnames t) =
    ["z_peak"; "y_peak"; "x_peak"; "peak_value"]%string ++
    match centroid_func with
    | None => []
    | Some _ => ["x_centroid"; "y_centroid"]%string ++
                match wcs with None => [] | Some _ => ["skycoord_centroid"%string] end
    end /\
  match wcs with
  | None => "skycoord_peak"%string ∉ colnames t
  | Some _ => "skycoord_peak"%string ∈ colnames t /\
              (index_of "skycoord_peak" (colnames t) < index_of "peak_value" (colnames t))%nat
  end.
Proof.
  intros H.
  apply find_peaks_Ok_inv in H as (h' & d & data & _ & _ & H).
  apply find_peaks_on_Ok_inv in H as (pg & z & y & x & _ & _ & H).
  destruct (truncate argsort npeaks z y x (gather3 data z y x)) as [[[z' y'] x'] pv'].
  apply build_table_colnames in H. rewrite H.
  destruct wcs, centroid_func; repeat split;
    try (vm_compute; reflexivity);
    try (vm_compute; lia);
    rewrite list_elem_of_In; simpl; intuition discriminate.
Qed.

Lemma find_peaks_column_order_witness :
  exists t,
    fst (find_peaks_u [field_5_1_5] 0 (Fin 0) 1 None None None None (Some tt) None
           (Some wcs_unit)) = Ok t /\
    filter (fun n => n <> "skycoord_peak"%string) (colnames t) =
      ["z_peak"; "y_peak"; "x_peak"; "peak_value"; "x_centroid"; "y_centroid";
       "skycoord_centroid"]%string /\
    "skycoord_peak"%string ∈ colnames t /\
    (index_of "skycoord_peak" (colnames t) < index_of "peak_value" (colnames t))%nat.
Proof.
  eexists. split; [vm_compute; reflexivity|].
  apply (find_peaks_column_order (fun _ : unit => true) (Ok centroid_guess) argsort_small [field_5_1_5] 0
           (Fin 0) 1 None None None None (Some tt) None (Some wcs_unit)).
  vm_compute. reflexivity.
Defined.

(* ----------------------------------------------------------------- *)
(** ** NaN preprocessing *)

Lemma zip_nan_mask (l : list fval) (m : fval) :
  zip_with (fun v b => if (b : bool) then m else v) l (map isnan l)
  = map (fun v => if isnan v then m else v) l.
Proof. induction l as [|v l IH]; simpl; [done|]. by rewrite IH. Qed.

Lemma replace_nan_id (l : list fval) (m : fval) :
  existsb id (map isnan l) = false -> map (fun v => if isnan v then m else v) l = l.
Proof.
  induction l as [|v l IH]; simpl; [done|]. intros H.
  apply orb_false_iff in H as [Hv Hl]. rewrite Hv, IH; done.
Qed.

Lemma existsb_id_map (l : list fval) : existsb id (map isnan l) = existsb isnan l.
Proof. induction l as [|v l IH]; simpl; [done|]. by rewrite IH. Qed.

(** What lines 13-19 do to the store: the working array is the caller's
    array with every NaN replaced by [nanmin]; it lives either at the
    caller's address (no NaN: nothing written) or at a fresh address; no
    pre-existing object changes. *)
Lemma sanitize_spec (h : heap) (a : nat) (d : ndarray fval) :
  h !! a = Some d ->
  exists h' a' d',
    sanitize h a = Some (h', a') /\ h' !! a' = Some d' /\
    shape d' = shape d /\
    buf d' = map (fun v => if isnan v then nanmin (buf d) else v) (buf d) /\
    (forall i, (i < length h)%nat -> h' !! i = h !! i) /\
    (existsb isnan (buf d) = true -> length h = a').
Proof.
  intros Ha. unfold sanitize. rewrite Ha.
  destruct (existsb id (map isnan (buf d))) eqn:En; cbv zeta.
  - eexists _, _, _. split; [reflexivity|]. split.
    { apply list_lookup_insert_eq. rewrite length_app. simpl. lia. }
    split; [done|]. split; [by rewrite zip_nan_mask|]. split.
    + intros i Hi. rewrite list_lookup_insert_ne by lia. by apply lookup_app_l.
    + done.
  - exists h, a, d. split; [done|]. split; [done|]. split; [done|].
    split; [by rewrite replace_nan_id|]. split; [done|].
    intros Hn. exfalso. rewrite existsb_id_map in En. congruence.
Qed.

(* ----------------------------------------------------------------- *)
(** ** Shapes along the pipeline *)

Lemma apply_mask_shape (data : ndarray fval) (pg pg' : ndarray bool)
    (mask : option (ndarray bool)) :
  apply_mask data pg mask = Ok pg' -> shape pg' = shape pg.
Proof.
  unfold apply_mask. destruct mask as [m|]; [|by intros [= <-]].
  destruct (list_eqb _ _); simpl; [|done]. by intros [= <-].
Qed.

Lemma apply_border_shape (bw : option Z) (pg : ndarray bool) :
  shape (apply_border bw pg) = shape pg.
Proof.
  destruct bw as [b|]; simpl; [|done]. unfold border_step. fold (border_axis_step b).
  apply border_fold_shape.
Qed.

Lemma working_shape (data data_max : ndarray fval) (pg0 : ndarray bool) (thr : fval)
    (bw : option Z) (mask : option (ndarray bool)) :
  apply_mask data (candidate_mask data data_max) mask = Ok pg0 ->
  shape (threshold_step data thr (apply_border bw pg0)) = shape data.
Proof.
  intros H. unfold threshold_step, nd_zip; simpl.
  rewrite apply_border_shape. by apply apply_mask_shape in H.
Qed.

(* ----------------------------------------------------------------- *)
(** ** Rank *)





(* ----------------------------------------------------------------- *)
(** ** Extraction: nonzero() and the gathered values *)

Lemma lookup_map_std {A B} (g : A -> B) (l : list A) (i : nat) :
  map g l !! i = g <$> l !! i.
Proof. revert i; induction l as [|x l IH]; intros [|i]; simpl; auto. Qed.

Lemma elem_of_zip_seq {A} (l : list A) (i : nat) (x : A) :
  (i, x) ∈ zip (seq 0 (length l)) l <-> l !! i = Some x.
Proof.
  rewrite list_elem_of_lookup. split.
  - intros [k Hk]. apply lookup_zip_with_Some in Hk as (i' & x' & [= <- <-] & Hs & Hl).
    apply lookup_seq in Hs as [-> _]. done.
  - intros Hl. exists i. apply lookup_zip_with_Some. exists i, x.
    split; [done|]. split; [|done]. apply lookup_seq. split; [lia|].
    by eapply lookup_lt_Some.
Qed.

Lemma true_positions_elem (m : ndarray bool) (f : nat) :
  f ∈ true_positions m <-> buf m !! f = Some true.
Proof.
  unfold true_positions. rewrite list_elem_of_omap. split.
  - intros [[f' b] [Hin Hb]]. destruct b; [|done]. injection Hb as ->.
    by apply elem_of_zip_seq.
  - intros H. exists (f, true). split; [by apply elem_of_zip_seq|done].
Qed.

Lemma ravel_unravel (sh : list nat) (f : nat) :
  (f < size sh)%nat -> ravel sh (unravel sh f) = f.
Proof.
  revert f; induction sh as [|n sh IH]; intros f Hf; simpl in *.
  - lia.
  - assert (size sh <> 0%nat) as Hs by (intros E; rewrite E in Hf; lia).
    rewrite IH by (apply Nat.mod_upper_bound; done).
    rewrite Nat.mul_comm. symmetry. apply Nat.div_mod_eq.
Qed.

(** The values gathered at the coordinates [nonzero()] returns are the
    samples at the True cells, in row-major order. *)
Lemma gather3_nonzero3 (data : ndarray fval) (m : ndarray bool) (z y x : list nat) :
  length (buf data) = size (shape data) -> shape m = shape data ->
  (length (buf m) <= length (buf data))%nat ->
  nonzero3 m = Ok (z, y, x) ->
  gather3 data z y x = map (fun f => nth f (buf data) NaN) (true_positions m).
Proof.
  intros Hwf Hsh Hlen. unfold nonzero3.
  destruct (Nat.eqb_spec (ndim m) 3) as [H3|]; [|done]. intros [= <- <- <-].
  assert (forall f, f ∈ true_positions m -> (f < size (shape data))%nat) as Hb.
  { intros f Hf. apply true_positions_elem in Hf. apply lookup_lt_Some in Hf. lia. }
  unfold gather3. revert Hb. generalize (true_positions m) as L.
  induction L as [|f L IH]; intros Hb; simpl; [done|].
  f_equal.
  - unfold nd_get. rewrite <- Hsh.
    assert (length (unravel (shape m) f) = 3%nat) as Hl
      by (rewrite unravel_length; done).
    destruct (unravel (shape m) f) as [|i0 [|i1 [|i2 [|]]]] eqn:Eu; simpl in Hl; try lia.
    simpl. rewrite <- Eu, ravel_unravel; [done|]. rewrite Hsh. apply Hb. left.
  - apply IH. intros g Hg. apply Hb. by right.
Qed.

Lemma threshold_step_true (data : ndarray fval) (thr : fval) (pg : ndarray bool) (f : nat) :
  buf (threshold_step data thr pg) !! f = Some true ->
  exists v, buf data !! f = Some v /\ flt thr v = true.
Proof.
  unfold threshold_step, nd_zip, nd_map; simpl.
  intros H. apply lookup_zip_with_Some in H as (g & w & Hgw & _ & Hw).
  rewrite lookup_map_std in Hw.
  destruct (buf data !! f) as [v|]; simpl in Hw; [|done]. injection Hw as <-.
  exists v. split; [done|]. symmetry in Hgw. by apply andb_true_iff in Hgw as [_ ?].
Qed.

(* ----------------------------------------------------------------- *)
(** ** argsort *)

Lemma insert_by_perm (p : nat * fval) (l : list (nat * fval)) :
  Permutation (insert_by p l) (p :: l).
Proof.
  induction l as [|q l IH]; simpl; [done|].
  destruct (flt (snd p) (snd q)); [done|].
  rewrite IH. constructor.
Qed.

Lemma fold_insert_perm (L acc : list (nat * fval)) :
  Permutation (fold_left (fun acc p => insert_by p acc) L acc) (L ++ acc).
Proof.
  revert acc; induction L as [|p L IH]; intros acc; simpl; [done|].
  rewrite IH, insert_by_perm. symmetry. apply Permutation_middle.
Qed.

Lemma map_fst_zip {A B} (l : list A) (k : list B) :
  length l = length k -> map fst (zip l k) = l.
Proof.
  revert k; induction l as [|x l IH]; intros [|y k] H; simpl in *; try done.
  f_equal. apply IH. lia.
Qed.

Lemma argsort_small_perm (pv : list fval) :
  Permutation (argsort_small pv) (seq 0 (length pv)).
Proof.
  unfold argsort_small. rewrite (Permutation_map fst (fold_insert_perm _ [])).
  rewrite app_nil_r, map_fst_zip; [done|]. by rewrite length_seq.
Qed.

Lemma fle_refl (v : fval) : isnan v = false -> fle v v = true.
Proof. destruct v; simpl; try done. intros _. unfold fle. simpl. by rewrite Z.eqb_refl, orb_true_r. Qed.

Lemma fle_trans (a b c : fval) : fle a b = true -> fle b c = true -> fle a c = true.
Proof.
  unfold fle. destruct a, b, c; simpl; try done;
    rewrite ?orb_true_iff, ?Z.ltb_lt, ?Z.eqb_eq; intros; lia.
Qed.

Lemma fle_total (a b : fval) :
  isnan a = false -> isnan b = false -> flt b a = false -> fle a b = true.
Proof.
  unfold fle. destruct a, b; simpl; try done; intros _ _.
  rewrite orb_true_iff, Z.ltb_lt, Z.eqb_eq, Z.ltb_ge. lia.
Qed.

Lemma flt_not_nan (a b : fval) : flt a b = true -> isnan b = false.
Proof. by destruct a, b. Qed.

Lemma fle_squeeze (a b c : fval) :
  fle a b = true -> fle b c = true -> feq a c = true ->
  feq a b = true /\ feq b c = true.
Proof.
  unfold fle. destruct a, b, c; simpl; intros H1 H2 H3; try discriminate;
    rewrite ?orb_true_iff, ?Z.ltb_lt, ?Z.eqb_eq in *; rewrite ?Z.eqb_eq;
    split; try reflexivity; lia.
Qed.

Lemma flt_feq_false (a b : fval) : flt a b = true -> feq a b = false.
Proof. destruct a, b; simpl; try done. rewrite Z.ltb_lt. intros. apply Z.eqb_neq. lia. Qed.

Lemma argsort_order_trans (p q r : nat * fval) :
  argsort_order p q -> argsort_order q r -> argsort_order p r.
Proof.
  intros [L1 E1] [L2 E2]. split; [eauto using fle_trans|].
  intros E. destruct (fle_squeeze _ _ _ L1 L2 E) as [Ea Eb].
  specialize (E1 Ea). specialize (E2 Eb). lia.
Qed.

Lemma insert_by_sorted (p : nat * fval) (l : list (nat * fval)) :
  StronglySorted argsort_order l -> isnan (snd p) = false ->
  Forall (fun q => isnan (snd q) = false /\ (fst q < fst p)%nat) l ->
  StronglySorted argsort_order (insert_by p l).
Proof.
  intros HS Hp. induction HS as [|q r HS IH Hq]; intros Hl; simpl.
  - repeat constructor.
  - inversion Hl as [|? ? [Nq Iq] Hr]; subst.
    destruct (flt (snd p) (snd q)) eqn:Lt.
    + assert (argsort_order p q) as Hpq.
      { split; [unfold fle; by rewrite Lt|]. by rewrite flt_feq_false. }
      constructor; [by constructor|]. constructor; [done|].
      apply List.Forall_impl with (P := argsort_order q); [|done].
      intros x. by apply argsort_order_trans.
    + constructor; [by apply IH|].
      apply List.Forall_forall. intros x Hx.
      apply (Permutation_in _ (insert_by_perm p r)) in Hx as [<-|Hx].
      * split; [by apply fle_total|]. intros _. done.
      * by eapply List.Forall_forall; [exact Hq|].
Qed.

Lemma fold_insert_sorted (vs : list fval) (s : nat) (acc : list (nat * fval)) :
  Forall (fun v => isnan v = false) vs ->
  StronglySorted argsort_order acc ->
  Forall (fun q => isnan (snd q) = false /\ (fst q < s)%nat) acc ->
  StronglySorted argsort_order
    (fold_left (fun acc p => insert_by p acc) (zip (seq s (length vs)) vs) acc).
Proof.
  revert s acc. induction vs as [|v vs IH]; intros s acc Hv HS Hacc; simpl; [done|].
  inversion Hv as [|? ? Nv Hvs]; subst.
  apply IH; [done | by apply insert_by_sorted |].
  apply List.Forall_forall. intros q Hq.
  apply (Permutation_in _ (insert_by_perm _ _)) in Hq as [<-|Hq]; simpl.
  - split; [done | lia].
  - eapply List.Forall_forall in Hacc; [|exact Hq]. destruct Hacc. split; [done | lia].
Qed.



Lemma map_reverse_std {A B} (f : A -> B) (l : list A) :
  map f (reverse l) = reverse (map f l).
Proof. unfold reverse. rewrite <- !rev_alt. apply map_rev. Qed.

Lemma StronglySorted_map_in {A B} (R1 : A -> A -> Prop) (R2 : B -> B -> Prop)
    (f : A -> B) (P : A -> Prop) (l : list A) :
  Forall P l -> (forall a b, P a -> P b -> R1 a b -> R2 (f a) (f b)) ->
  StronglySorted R1 l -> StronglySorted R2 (map f l).
Proof.
  intros HP HR HS. induction HS as [|x l HS IH Hx]; simpl; constructor.
  - inversion HP; subst. by apply IH.
  - inversion HP as [|? ? Px Pl]; subst. apply Forall_map.
    apply List.Forall_forall. intros y Hy. apply HR; [done| |].
    + by eapply List.Forall_forall; [exact Pl|].
    + by eapply List.Forall_forall; [exact Hx|].
Qed.

(** numpy's insertion sort meets numpy's guarantee. *)
Lemma argsort_small_sorts : argsort_sorts argsort_small.
Proof.
  intros pv. split; [apply argsort_small_perm|]. intros Hnan.
  set (S := fold_left (fun acc p => insert_by p acc) (zip (seq 0 (length pv)) pv) []).
  assert (StronglySorted argsort_order S) as HS.
  { apply fold_insert_sorted; [done | constructor | constructor]. }
  assert (Permutation S (zip (seq 0 (length pv)) pv)) as HP.
  { unfold S. rewrite fold_insert_perm, app_nil_r. done. }
  assert (Forall (fun p => nth (fst p) pv NaN = snd p) S) as Hpair.
  { apply List.Forall_forall. intros [i v] Hp. apply (Permutation_in _ HP) in Hp.
    apply list_elem_of_In, elem_of_zip_seq in Hp. simpl. by apply nth_lookup_Some. }
  unfold argsort_small. fold S.
  apply (StronglySorted_map_in argsort_order _ fst _ _ Hpair); [|exact HS].
  intros p q Ep Eq [Hpq _]. by rewrite Ep, Eq.
Qed.

Lemma select_idx_bound (argsort : list fval -> list nat) (Hsort : argsort_sorts argsort)
    (k : nat) (pv : list fval) (i : nat) :
  i ∈ select_idx argsort k pv -> (i < length pv)%nat.
Proof.
  unfold select_idx. intros H.
  assert (i ∈ reverse (argsort pv)) as H1.
  { rewrite <- (take_drop k (reverse (argsort pv))). apply elem_of_app. by left. }
  rewrite elem_of_reverse, list_elem_of_In in H1.
  eapply Permutation_in in H1; [|apply (proj1 (Hsort pv))]. apply in_seq in H1. lia.
Qed.

(** Every value kept by the truncation is one of the extracted values. *)
Lemma truncate_values_sub (argsort : list fval -> list nat) (Hsort : argsort_sorts argsort)
    (npeaks : option nat) (z y x : list nat) (pv : list fval)
    (z' y' x' : list nat) (pv' : list fval) :
  truncate argsort npeaks z y x pv = (z', y', x', pv') -> forall v, v ∈ pv' -> v ∈ pv.
Proof.
  unfold truncate. intros H v Hv.
  destruct npeaks as [k|]; [|by injection H as <- <- <- <-].
  destruct (k <? length x)%nat; [|by injection H as <- <- <- <-].
  injection H as _ _ _ <-. unfold take_at in Hv.
  apply list_elem_of_In, in_map_iff in Hv as (i & <- & Hi).
  apply list_elem_of_In in Hi. apply (select_idx_bound argsort Hsort) in Hi.
  apply list_elem_of_In, nth_In. done.
Qed.

(* ----------------------------------------------------------------- *)
(** ** The peak_value column of a successful run *)

Section Values.
Context {Sky PyObj : Type} (callable : PyObj -> bool).
Context (centroid_sources : result (ndarray fval -> list fval -> list fval -> nat ->
  option (ndarray bool) -> option (ndarray fval) -> option (ndarray bool) -> PyObj ->
  result (list fval * list fval))).
Context (argsort : list fval -> list nat).

Lemma build_table_peak_value (data : ndarray fval) (z y x : list nat) (pv : list fval)
    (box_size : nat) (footprint mask : option (ndarray bool))
    (centroid_func : option PyObj) (error : option (ndarray fval))
    (wcs : option (wcs_t Sky)) (t : table Sky) :
  build_table callable centroid_sources data z y x pv box_size footprint mask
    centroid_func error wcs = Ok t ->
  filter (fun nc => fst nc = "peak_value"%string) t = [("peak_value"%string, FloatCol pv)].
Proof.
  unfold build_table.
  destruct wcs as [w|].
  - destruct (w (as_float x) (as_float y)) as [sk|]; simpl; [|done].
    destruct centroid_func as [cf|].
    + destruct centroid_sources as [cs|]; simpl; [|done].
      destruct (callable cf); simpl; [|done].
      destruct (cs _ _ _ _ _ _ _ _) as [[xc yc]|]; simpl; [|done].
      destruct (w xc yc) as [sk2|]; simpl; [|done].
      intros H. injection H as <-. vm_compute. reflexivity.
    + intros H. injection H as <-. vm_compute. reflexivity.
  - simpl. destruct centroid_func as [cf|].
    + destruct centroid_sources as [cs|]; simpl; [|done].
      destruct (callable cf); simpl; [|done].
      destruct (cs _ _ _ _ _ _ _ _) as [[xc yc]|]; simpl; [|done].
      intros H. injection H as <-. vm_compute. reflexivity.
    + intros H. injection H as <-. vm_compute. reflexivity.
Qed.

Lemma peak_value_column (t : table Sky) (pv : list fval) (c : column Sky) :
  filter (fun nc => fst nc = "peak_value"%string) t = [("peak_value"%string, FloatCol pv)] ->
  ("peak_value"%string, c) ∈ t -> c = FloatCol pv.
Proof.
  intros Hf Hc.
  assert (("peak_value"%string, c) ∈ filter (fun nc => fst nc = "peak_value"%string) t)
    as Hc' by (apply list_elem_of_filter; done).
  rewrite Hf in Hc'. apply list_elem_of_singleton in Hc'. by injection Hc'.
Qed.

(** A successful run on a well-formed array: the [peak_value] column is
    the truncation of the samples at the True cells of the final mask,
    and every such cell passed the threshold. *)
Lemma find_peaks_on_values (data : ndarray fval) (threshold : fval) (box_size : nat)
    (footprint mask : option (ndarray bool)) (border_width : option Z)
    (npeaks : option nat) (centroid_func : option PyObj) (error : option (ndarray fval))
    (wcs : option (wcs_t Sky)) (t : table Sky) :
  length (buf data) = size (shape data) ->
  find_peaks_on callable centroid_sources argsort data threshold box_size footprint mask
    border_width npeaks centroid_func error wcs = Ok t ->
  exists (m : ndarray bool) z y x z' y' x' pv',
    (forall f, f ∈ true_positions m ->
       exists v, buf data !! f = Some v /\ flt threshold v = true) /\
    nonzero3 m = Ok (z, y, x) /\
    truncate argsort npeaks z y x (map (fun f => nth f (buf data) NaN) (true_positions m))
      = (z', y', x', pv') /\
    (forall c, ("peak_value"%string, c) ∈ t -> c = FloatCol pv').
Proof.
  intros Hwf H.
  apply find_peaks_on_Ok_inv in H as (m & z & y & x & Epg & Enz & H).
  apply peak_goodmask_Ok_inv in Epg as (data_max & pg0 & _ & Em & Hm).
  assert (gather3 data z y x = map (fun f => nth f (buf data) NaN) (true_positions m))
    as Eg.
  { apply gather3_nonzero3; [done| | |done].
    - rewrite Hm. eapply working_shape. exact Em.
    - rewrite Hm. unfold threshold_step, nd_zip, nd_map. simpl.
      rewrite length_zip_with, length_map. lia. }
  rewrite Eg in H.
  destruct (truncate argsort npeaks z y x _) as [[[z' y'] x'] pv'] eqn:Et.
  exists m, z, y, x, z', y', x', pv'.
  split; [|split; [done|split; [done|]]].
  - intros f Hf. apply true_positions_elem in Hf. rewrite Hm in Hf.
    by apply threshold_step_true in Hf.
  - intros c Hc. eapply peak_value_column; [|exact Hc].
    by eapply build_table_peak_value.
Qed.

End Values.

Lemma find_peaks_working {Sky PyObj : Type} (callable : PyObj -> bool)
    (centroid_sources : result (ndarray fval -> list fval -> list fval -> nat ->
       option (ndarray bool) -> option (ndarray fval) -> option (ndarray bool) -> PyObj ->
       result (list fval * list fval)))
    (argsort : list fval -> list nat)
    (h : heap) (a : nat) (threshold : fval) (box_size : nat)
    (footprint mask : option (ndarray bool)) (border_width : option Z)
    (npeaks : option nat) (centroid_func : option PyObj) (error : option (ndarray fval))
    (wcs : option (wcs_t Sky)) (d : ndarray fval) (t : table Sky) :
  h !! a = Some d ->
  fst (find_peaks callable centroid_sources argsort h a threshold box_size footprint mask
         border_width npeaks centroid_func error wcs) = Ok t ->
  exists data,
    shape data = shape d /\
    buf data = map (fun v => if isnan v then nanmin (buf d) else v) (buf d) /\
    find_peaks_on callable centroid_sources argsort data threshold box_size footprint mask
      border_width npeaks centroid_func error wcs = Ok t.
Proof.
  intros Ha H.
  destruct (sanitize_spec h a d Ha) as (h1 & a1 & d1 & Es1 & Ed1 & Hsh & Hbuf & _).
  apply find_peaks_Ok_inv in H as (h' & d' & data & Es & Ed & H).
  rewrite Es1 in Es. injection Es as <- <-. rewrite Ed1 in Ed. injection Ed as <-.
  by exists d1.
Qed.

(** Every value in the peak_value column of a run on a well-formed
    array passed the threshold. *)
Lemma find_peaks_values_above {Sky PyObj : Type} (callable : PyObj -> bool)
    (centroid_sources : result (ndarray fval -> list fval -> list fval -> nat ->
       option (ndarray bool) -> option (ndarray fval) -> option (ndarray bool) -> PyObj ->
       result (list fval * list fval)))
    (argsort : list fval -> list nat) (Hsort : argsort_sorts argsort)
    (h : heap) (a : nat) (threshold : fval) (box_size : nat)
    (footprint mask : option (ndarray bool)) (border_width : option Z)
    (npeaks : option nat) (centroid_func : option PyObj) (error : option (ndarray fval))
    (wcs : option (wcs_t Sky)) (d : ndarray fval) (t : table Sky) (pv : list fval) :
  h !! a = Some d -> length (buf d) = size (shape d) ->
  fst (find_peaks callable centroid_sources argsort h a threshold box_size footprint mask
         border_width npeaks centroid_func error wcs) = Ok t ->
  ("peak_value"%string, FloatCol pv) ∈ t ->
  Forall (fun v => flt threshold v = true) pv.
Proof.
  intros Ha Hwf H Hpv.
  eapply find_peaks_working in H as (data & Hsh & Hbuf & H); [|exact Ha].
  apply find_peaks_on_values in H as (m & z & y & x & z' & y' & x' & pv' & Hm & _ & Et & Hc).
  2: { rewrite Hbuf, Hsh, length_map. done. }
  apply Hc in Hpv. injection Hpv as ->.
  apply List.Forall_forall. intros v Hv. apply list_elem_of_In in Hv.
  eapply (truncate_values_sub argsort Hsort) in Hv; [|exact Et].
  apply list_elem_of_In, in_map_iff in Hv as (f & <- & Hf).
  apply list_elem_of_In, Hm in Hf as (v & Hv & Hthr).
  by rewrite (nth_lookup_Some _ _ _ _ Hv).
Qed.

(** C5 (strict threshold).  The threshold step keeps a cell exactly when
    it was kept before and its (sanitised) value is strictly greater than
    [threshold]; a value equal to the threshold is dropped; and every
    value in the [peak_value] column of a run is strictly greater than
    [threshold]. *)
Theorem threshold_strict {Sky PyObj : Type} (callable : PyObj -> bool)
    (centroid_sources : result (ndarray fval -> list fval -> list fval -> nat ->
       option (ndarray bool) -> option (ndarray fval) -> option (ndarray bool) -> PyObj ->
       result (list fval * list fval)))
    (argsort : list fval -> list nat) (Hsort : argsort_sorts argsort)
    (h : heap) (a : nat) (threshold : fval) (box_size : nat)
    (footprint mask : option (ndarray bool)) (border_width : option Z)
    (npeaks : option nat) (centroid_func : option PyObj) (error : option (ndarray fval))
    (wcs : option (wcs_t Sky)) :
  (forall (data : ndarray fval) (pg : ndarray bool) (f : nat) (g : bool) (v : fval),
     buf pg !! f = Some g -> buf data !! f = Some v ->
     buf (threshold_step data threshold pg) !! f = Some (g && flt threshold v)) /\
  (forall v, feq v threshold = true -> flt threshold v = false) /\
  (forall (d : ndarray fval) (t : table Sky) (pv : list fval),
     h !! a = Some d -> length (buf d) = size (shape d) ->
     fst (find_peaks callable centroid_sources argsort h a threshold box_size footprint mask
            border_width npeaks centroid_func error wcs) = Ok t ->
     ("peak_value"%string, FloatCol pv) ∈ t ->
     Forall (fun v => flt threshold v = true) pv).
Proof.
  split; [|split].
  - intros data pg f g v Hg Hv. unfold threshold_step, nd_zip, nd_map. simpl.
    rewrite lookup_zip_with, Hg. simpl. rewrite lookup_map_std, Hv. done.
  - intros v. destruct v, threshold; simpl; try done.
    intros E. apply Z.eqb_eq in E as ->. apply Z.ltb_irrefl.
  - intros d t pv. by apply find_peaks_values_above.
Qed.

Lemma threshold_strict_witness :
  Forall (fun v => flt (Fin 1) v = true) [Fin 5; Fin 5] /\
  buf (threshold_step field_5_1_5 (Fin 1) (all_true [1; 1; 3]%nat)) !! 1%nat = Some false.
Proof.
  destruct (threshold_strict (fun _ : unit => true) (Ok centroid_guess) argsort_small argsort_small_sorts [field_5_1_5] 0%nat (Fin 1) 1%nat
              None None None None None None (@None (wcs_t unit))) as (H1 & _ & H3).
  split.
  - apply (H3 field_5_1_5
             [("z_peak"%string, IntCol [0%nat; 0%nat]); ("y_peak"%string, IntCol [0%nat; 0%nat]);
              ("x_peak"%string, IntCol [0%nat; 2%nat]);
              ("peak_value"%string, FloatCol [Fin 5; Fin 5])]);
      [reflexivity | reflexivity | vm_compute; reflexivity |].
    apply list_elem_of_In. simpl. tauto.
  - rewrite (H1 field_5_1_5 (all_true [1; 1; 3]%nat) 1%nat true (Fin 1)); reflexivity.
Defined.

(* ----------------------------------------------------------------- *)
(** ** No surviving cell *)

Lemma sanitize_working (h : heap) (a : nat) (d : ndarray fval) :
  h !! a = Some d ->
  exists h' a', sanitize h a = Some (h', a') /\ h' !! a' = Some (nan_sanitized d).
Proof.
  intros Ha. destruct (sanitize_spec h a d Ha) as (h' & a' & d' & Es & Ed & Hsh & Hbuf & _).
  exists h', a'. split; [done|]. rewrite Ed. destruct d' as [sh b]. simpl in *.
  by rewrite Hsh, Hbuf.
Qed.

Lemma true_positions_none (m : ndarray bool) :
  existsb id (buf m) = false -> true_positions m = [].
Proof.
  intros H. destruct (true_positions m) as [|f L] eqn:E; [done|].
  assert (f ∈ true_positions m) as Hf by (rewrite E; left).
  apply true_positions_elem, list_elem_of_lookup_2, list_elem_of_In in Hf.
  assert (existsb id (buf m) = true) by (apply existsb_exists; by exists true).
  congruence.
Qed.

(** C7 (empty result).  On a rank-3 field, when no cell survives the
    candidate, mask, border and threshold narrowing, find_peaks returns a
    table with the columns z_peak, y_peak, x_peak, peak_value and no row,
    not an error. *)
Theorem find_peaks_no_survivor {Sky PyObj : Type} (callable : PyObj -> bool)
    (centroid_sources : result (ndarray fval -> list fval -> list fval -> nat ->
       option (ndarray bool) -> option (ndarray fval) -> option (ndarray bool) -> PyObj ->
       result (list fval * list fval)))
    (argsort : list fval -> list nat)
    (h : heap) (a : nat) (threshold : fval) (box_size : nat)
    (footprint mask : option (ndarray bool)) (border_width : option Z)
    (npeaks : option nat) (error : option (ndarray fval))
    (d : ndarray fval) (m : ndarray bool) :
  h !! a = Some d -> ndim d = 3%nat ->
  peak_goodmask (nan_sanitized d) threshold box_size footprint mask border_width = Ok m ->
  existsb id (buf m) = false ->
  fst (find_peaks callable centroid_sources argsort h a threshold box_size footprint mask
         border_width npeaks None error (@None (wcs_t Sky)))
  = Ok [("z_peak"%string, IntCol []); ("y_peak"%string, IntCol []);
        ("x_peak"%string, IntCol []); ("peak_value"%string, FloatCol [])].
Proof.
  intros Ha H3 Hpg Hnone.
  destruct (sanitize_working h a d Ha) as (h' & a' & Es & Ed).
  unfold find_peaks. rewrite Es, Ed. cbn [fst]. unfold find_peaks_on.
  rewrite Hpg. cbn [rbind].
  assert (nonzero3 m = Ok ([], [], [])) as ->.
  { unfold nonzero3.
    apply peak_goodmask_Ok_inv in Hpg as (dm & pg0 & _ & Em & ->).
    unfold ndim. rewrite (working_shape _ _ _ _ _ _ Em). simpl. unfold ndim in H3.
    rewrite H3. simpl. rewrite true_positions_none; [done|].
    exact Hnone. }
  cbn [rbind]. destruct npeaks as [k|]; reflexivity.
Qed.

Lemma find_peaks_no_survivor_witness :
  peak_goodmask (nan_sanitized field_5_1_5) (Fin 10) 3%nat None None None
    = Ok (mk_nd [1; 1; 3]%nat [false; false; false]) /\
  fst (find_peaks_u [field_5_1_5] 0%nat (Fin 10) 3%nat None None None None None None None)
  = Ok [("z_peak"%string, IntCol []); ("y_peak"%string, IntCol []);
        ("x_peak"%string, IntCol []); ("peak_value"%string, FloatCol [])].
Proof.
  split; [vm_compute; reflexivity|].
  apply (find_peaks_no_survivor (fun _ : unit => true) (Ok centroid_guess) argsort_small [field_5_1_5] 0%nat
           (Fin 10) 3%nat None None None None None field_5_1_5
           (mk_nd [1; 1; 3]%nat [false; false; false]));
    [reflexivity | reflexivity | vm_compute; reflexivity | reflexivity].
Defined.

(* ----------------------------------------------------------------- *)
(** ** NaN handling *)

Lemma nanmin_step_spec (acc x : fval) :
  let s := nanmin_step acc x in
  (isnan acc = false -> isnan s = false /\ fle s acc = true) /\
  (isnan x = false -> isnan s = false /\ fle s x = true) /\
  (isnan s = false -> s = acc \/ s = x).
Proof.
  unfold nanmin_step.
  destruct (isnan x) eqn:Nx; [by repeat split; auto using fle_refl|].
  destruct (isnan acc) eqn:Na; [by repeat split; auto using fle_refl|].
  destruct (flt x acc) eqn:Lt; simpl.
  - repeat split; auto using fle_refl. unfold fle. by rewrite Lt.
  - repeat split; auto using fle_refl, fle_total.
Qed.

Lemma nanmin_fold_spec (l : list fval) (acc : fval) :
  let r := fold_left nanmin_step l acc in
  (isnan acc = false -> isnan r = false /\ fle r acc = true) /\
  (forall x, In x l -> isnan x = false -> isnan r = false /\ fle r x = true) /\
  (isnan r = false -> r = acc \/ In r l).
Proof.
  revert acc. induction l as [|y l IH]; intros acc; simpl.
  - repeat split; auto using fle_refl; intros; done.
  - destruct (nanmin_step_spec acc y) as (S1 & S2 & S3).
    destruct (IH (nanmin_step acc y)) as (I1 & I2 & I3).
    set (s := nanmin_step acc y) in *.
    set (r := fold_left nanmin_step l s) in *.
    split; [|split].
    + intros Ha. destruct (S1 Ha) as [Ns Ls]. destruct (I1 Ns) as [Nr Lr].
      split; [done|]. eapply fle_trans; eauto.
    + intros x [<-|Hx] Nx.
      * destruct (S2 Nx) as [Ns Ls]. destruct (I1 Ns) as [Nr Lr].
        split; [done|]. eapply fle_trans; eauto.
      * by apply I2.
    + intros Nr. destruct (I3 Nr) as [E|E]; [|by right; right].
      rewrite E in Nr |- *. destruct (S3 Nr) as [-> | ->]; [by left | by right; left].
Qed.

(** [nanmin] is the least non-NaN entry: it is below every non-NaN entry,
    and it is an entry unless every entry is NaN. *)
Lemma nanmin_spec (l : list fval) :
  (forall x, In x l -> isnan x = false ->
     isnan (nanmin l) = false /\ fle (nanmin l) x = true) /\
  (isnan (nanmin l) = false -> In (nanmin l) l).
Proof.
  destruct (nanmin_fold_spec l NaN) as (_ & H2 & H3). unfold nanmin.
  split; [done|]. intros N. by destruct (H3 N) as [E|E]; [rewrite E in N|].
Qed.

Lemma nan_cell_reported :
  fst (find_peaks_u [field_nan] 0%nat (Fin 0) 3%nat None None None None None None None)
  = Ok [("z_peak"%string, IntCol [0%nat; 0%nat]); ("y_peak"%string, IntCol [0%nat; 0%nat]);
        ("x_peak"%string, IntCol [0%nat; 1%nat]); ("peak_value"%string, FloatCol [Fin 1; Fin 1])] /\
  nanmin [NaN; NInf; Fin 1] = NInf.
Proof. split; vm_compute; reflexivity. Qed.

(** C4 (NaN preprocessing, amended).  For a field [d] (at address [a])
    holding a NaN: the search runs on a private copy at a fresh address in
    which every NaN is replaced by [nanmin] of the field, the least non-NaN
    value (an entry of the field unless all entries are NaN); the caller's
    array and every pre-existing address are left as they were; and no NaN
    is ever returned as a peak value. *)
Theorem find_peaks_nan_handling {Sky PyObj : Type} (callable : PyObj -> bool)
    (centroid_sources : result (ndarray fval -> list fval -> list fval -> nat ->
       option (ndarray bool) -> option (ndarray fval) -> option (ndarray bool) -> PyObj ->
       result (list fval * list fval)))
    (argsort : list fval -> list nat) (Hsort : argsort_sorts argsort)
    (h : heap) (a : nat) (threshold : fval) (box_size : nat)
    (footprint mask : option (ndarray bool)) (border_width : option Z)
    (npeaks : option nat) (centroid_func : option PyObj) (error : option (ndarray fval))
    (wcs : option (wcs_t Sky)) (d : ndarray fval) :
  h !! a = Some d -> length (buf d) = size (shape d) -> existsb isnan (buf d) = true ->
  fst (find_peaks callable centroid_sources argsort h a threshold box_size footprint mask
         border_width npeaks centroid_func error wcs)
    = find_peaks_on callable centroid_sources argsort (nan_sanitized d) threshold box_size
        footprint mask border_width npeaks centroid_func error wcs /\
  snd (find_peaks callable centroid_sources argsort h a threshold box_size footprint mask
         border_width npeaks centroid_func error wcs) !! length h = Some (nan_sanitized d) /\
  snd (find_peaks callable centroid_sources argsort h a threshold box_size footprint mask
         border_width npeaks centroid_func error wcs) !! a = Some d /\
  (forall i, (i < length h)%nat ->
     snd (find_peaks callable centroid_sources argsort h a threshold box_size footprint mask
            border_width npeaks centroid_func error wcs) !! i = h !! i) /\
  (forall x, In x (buf d) -> isnan x = false ->
     isnan (nanmin (buf d)) = false /\ fle (nanmin (buf d)) x = true) /\
  (isnan (nanmin (buf d)) = false -> In (nanmin (buf d)) (buf d)) /\
  (forall (t : table Sky) (pv : list fval),
     fst (find_peaks callable centroid_sources argsort h a threshold box_size footprint mask
            border_width npeaks centroid_func error wcs) = Ok t ->
     ("peak_value"%string, FloatCol pv) ∈ t ->
     Forall (fun v => isnan v = false) pv).
Proof.
  intros Ha Hwf Hn.
  pose proof (find_peaks_values_above callable centroid_sources argsort Hsort h a threshold box_size
                footprint mask border_width npeaks centroid_func error wcs d) as Habove.
  destruct (sanitize_spec h a d Ha) as (h' & a' & d' & Es & Ed & Hsh & Hbuf & Hpre & Hfresh).
  specialize (Hfresh Hn). subst a'.
  assert (d' = nan_sanitized d) as ->.
  { destruct d' as [sh b]. unfold nan_sanitized. simpl in *. by rewrite Hsh, Hbuf. }
  assert (find_peaks callable centroid_sources argsort h a threshold box_size footprint mask
            border_width npeaks centroid_func error wcs
          = (find_peaks_on callable centroid_sources argsort (nan_sanitized d) threshold box_size
               footprint mask border_width npeaks centroid_func error wcs, h')) as E.
  { unfold find_peaks. by rewrite Es, Ed. }
  assert (a < length h)%nat by (apply lookup_lt_is_Some; by eexists).
  destruct (nanmin_spec (buf d)) as [M1 M2].
  rewrite E. simpl.
  split; [done|]. split; [done|]. split; [rewrite Hpre; done|].
  split; [done|]. split; [done|]. split; [done|].
  intros t pv Ht Hpv. rewrite E in Habove.
  apply List.Forall_impl with (P := fun v => flt threshold v = true).
  - intros v. apply flt_not_nan.
  - by apply (Habove t pv Ha Hwf).
Qed.

Lemma find_peaks_nan_handling_witness :
  existsb isnan (buf field_nan) = true /\
  snd (find_peaks_u [field_nan] 0%nat (Fin 0) 3%nat None None None None None None None)
    !! 0%nat = Some field_nan /\
  snd (find_peaks_u [field_nan] 0%nat (Fin 0) 3%nat None None None None None None None)
    !! 1%nat = Some (mk_nd [1; 1; 2]%nat [Fin 1; Fin 1]).
Proof.
  destruct (find_peaks_nan_handling (fun _ : unit => true) (Ok centroid_guess) argsort_small argsort_small_sorts [field_nan] 0%nat
              (Fin 0) 3%nat None None None None None None (@None (wcs_t unit)) field_nan)
    as (_ & H2 & H3 & _); [reflexivity | reflexivity | reflexivity |].
  split; [reflexivity|]. split; [exact H3|]. exact H2.
Defined.

(* ----------------------------------------------------------------- *)
(** ** Determinism *)

(** The result of a call is a function of the array at the address only:
    the search always runs on [nan_sanitized] of it. *)
Lemma find_peaks_fst {Sky PyObj : Type} (callable : PyObj -> bool)
    (centroid_sources : result (ndarray fval -> list fval -> list fval -> nat ->
       option (ndarray bool) -> option (ndarray fval) -> option (ndarray bool) -> PyObj ->
       result (list fval * list fval)))
    (argsort : list fval -> list nat)
    (h : heap) (a : nat) (threshold : fval) (box_size : nat)
    (footprint mask : option (ndarray bool)) (border_width : option Z)
    (npeaks : option nat) (centroid_func : option PyObj) (error : option (ndarray fval))
    (wcs : option (wcs_t Sky)) (d : ndarray fval) :
  h !! a = Some d ->
  fst (find_peaks callable centroid_sources argsort h a threshold box_size footprint mask
         border_width npeaks centroid_func error wcs)
  = find_peaks_on callable centroid_sources argsort (nan_sanitized d) threshold box_size
      footprint mask border_width npeaks centroid_func error wcs.
Proof.
  intros Ha. destruct (sanitize_working h a d Ha) as (h' & a' & Es & Ed).
  unfold find_peaks. by rewrite Es, Ed.
Qed.

Lemma find_peaks_snd_lookup {Sky PyObj : Type} (callable : PyObj -> bool)
    (centroid_sources : result (ndarray fval -> list fval -> list fval -> nat ->
       option (ndarray bool) -> option (ndarray fval) -> option (ndarray bool) -> PyObj ->
       result (list fval * list fval)))
    (argsort : list fval -> list nat)
    (h : heap) (a : nat) (threshold : fval) (box_size : nat)
    (footprint mask : option (ndarray bool)) (border_width : option Z)
    (npeaks : option nat) (centroid_func : option PyObj) (error : option (ndarray fval))
    (wcs : option (wcs_t Sky)) (d : ndarray fval) :
  h !! a = Some d ->
  snd (find_peaks callable centroid_sources argsort h a threshold box_size footprint mask
         border_width npeaks centroid_func error wcs) !! a = Some d.
Proof.
  intros Ha.
  destruct (sanitize_spec h a d Ha) as (h' & a' & d' & Es & Ed & _ & _ & Hpre & _).
  assert (a < length h)%nat by (apply lookup_lt_is_Some; by eexists).
  unfold find_peaks. rewrite Es, Ed. simpl. by rewrite Hpre.
Qed.

(** C8 (determinism).  A call on an array leaves that array as it was in
    the store, so calling again with the same arguments on the store the
    first call returned gives the same result (same columns, coordinates,
    values and order); more generally any two stores holding the same
    array at the address give the same result. *)
Theorem find_peaks_deterministic {Sky PyObj : Type} (callable : PyObj -> bool)
    (centroid_sources : result (ndarray fval -> list fval -> list fval -> nat ->
       option (ndarray bool) -> option (ndarray fval) -> option (ndarray bool) -> PyObj ->
       result (list fval * list fval)))
    (argsort : list fval -> list nat)
    (h : heap) (a : nat) (threshold : fval) (box_size : nat)
    (footprint mask : option (ndarray bool)) (border_width : option Z)
    (npeaks : option nat) (centroid_func : option PyObj) (error : option (ndarray fval))
    (wcs : option (wcs_t Sky)) (d : ndarray fval) :
  h !! a = Some d ->
  fst (find_peaks callable centroid_sources argsort
         (snd (find_peaks callable centroid_sources argsort h a threshold box_size footprint mask
                 border_width npeaks centroid_func error wcs))
         a threshold box_size footprint mask border_width npeaks centroid_func error wcs)
    = fst (find_peaks callable centroid_sources argsort h a threshold box_size footprint mask
             border_width npeaks centroid_func error wcs) /\
  (forall h2 : heap, h2 !! a = Some d ->
     fst (find_peaks callable centroid_sources argsort h2 a threshold box_size footprint mask
            border_width npeaks centroid_func error wcs)
     = fst (find_peaks callable centroid_sources argsort h a threshold box_size footprint mask
              border_width npeaks centroid_func error wcs)).
Proof.
  intros Ha. split.
  - rewrite (find_peaks_fst _ _ _ _ _ _ _ _ _ _ _ _ _ _ d Ha).
    apply find_peaks_fst, find_peaks_snd_lookup, Ha.
  - intros h2 Ha2.
    by rewrite (find_peaks_fst _ _ _ _ _ _ _ _ _ _ _ _ _ _ d Ha),
               (find_peaks_fst _ _ _ _ _ _ _ _ _ _ _ _ _ _ d Ha2).
Qed.

Lemma find_peaks_deterministic_witness :
  fst (find_peaks_u (snd (find_peaks_u [field_nan] 0%nat (Fin 0) 3%nat
                            None None None None None None None))
         0%nat (Fin 0) 3%nat None None None None None None None)
  = fst (find_peaks_u [field_nan] 0%nat (Fin 0) 3%nat None None None None None None None).
Proof.
  apply (proj1 (find_peaks_deterministic (fun _ : unit => true) (Ok centroid_guess) argsort_small [field_nan]
                  0%nat (Fin 0) 3%nat None None None None None None (@None (wcs_t unit))
                  field_nan eq_refl)).
Defined.

(* ----------------------------------------------------------------- *)
(** ** Truncation *)






(* ================================================================= *)
(** * Further properties of the code *)

Lemma lookup_repeat_lt {A} (x : A) (n i : nat) : (i < n)%nat -> repeat x n !! i = Some x.
Proof. revert i; induction n as [|n IH]; intros [|i] Hi; simpl; try lia; auto. apply IH. lia. Qed.

Lemma unravel_ravel (sh ix : list nat) :
  Forall2 (fun i n => (i < n)%nat) ix sh ->
  unravel sh (ravel sh ix) = ix /\ (ravel sh ix < size sh)%nat.
Proof.
  induction 1 as [|i n ix sh Hi Hrest IH]; cbn [ravel unravel]; [split; [done|cbv; lia]|].
  destruct IH as [IH1 IH2]. rewrite size_cons.
  assert ((i * size sh + ravel sh ix) / size sh = i)%nat as Ed.
  { symmetry. apply (Nat.div_unique _ _ _ (ravel sh ix)); [done|lia]. }
  assert ((i * size sh + ravel sh ix) mod size sh = ravel sh ix)%nat as Em.
  { symmetry. apply (Nat.mod_unique _ _ i); [done|lia]. }
  rewrite Ed, Em, IH1. split; [done|nia].
Qed.

Lemma fold_left_inv {X Y} (P : X -> Prop) (f : X -> Y -> X) (L : list Y) (o : X) :
  (forall o y, P o -> P (f o y)) -> P o -> P (fold_left f L o).
Proof. intros Hf. revert o. induction L as [|y L IH]; intros o Ho; simpl; auto. Qed.

Lemma fold_point {X} (f : ndarray fval -> X -> ndarray fval) (L : list X) (hit : X -> bool)
    (g : nat) (v : fval) (sh : list nat) :
  (forall x, In x L -> forall o w, shape o = sh -> buf o !! g = Some w ->
     shape (f o x) = sh /\ buf (f o x) !! g = Some (if hit x then v else w)) ->
  forall o w, shape o = sh -> buf o !! g = Some w ->
    shape (fold_left f L o) = sh /\
    buf (fold_left f L o) !! g = Some (if existsb hit L then v else w).
Proof.
  intros Hf. induction L as [|x L IH]; intros o w Hsh Hg; simpl; [done|].
  destruct (Hf x (or_introl eq_refl) o w Hsh Hg) as [Hsh' Hg'].
  destruct (IH (fun y Hy => Hf y (or_intror Hy)) _ _ Hsh' Hg') as [H1 H2].
  split; [done|]. rewrite H2. by destruct (hit x), (existsb hit L).
Qed.

Lemma assign_block_shape (o : ndarray fval) lead lo0 hi0 lo1 hi1 v :
  shape (assign_block o lead lo0 hi0 lo1 hi1 v) = shape o /\
  length (buf (assign_block o lead lo0 hi0 lo1 hi1 v)) = length (buf o).
Proof. unfold assign_block. simpl. by rewrite length_imap. Qed.

Lemma assign_block_lookup (o : ndarray fval) lead lo0 hi0 lo1 hi1 v g w :
  buf o !! g = Some w ->
  buf (assign_block o lead lo0 hi0 lo1 hi1 v) !! g =
  Some (if list_eqb (take (length lead) (unravel (shape o) g)) lead
          && in_slice (nth (length lead) (shape o) 0%nat) (Some lo0) (Some hi0)
               (nth (length lead) (unravel (shape o) g) 0%nat)
          && in_slice (nth (S (length lead)) (shape o) 0%nat) (Some lo1) (Some hi1)
               (nth (S (length lead)) (unravel (shape o) g) 0%nat)
        then v else w).
Proof. intros H. unfold assign_block. simpl. by rewrite list_lookup_imap, H. Qed.

Lemma in_slice_block (A n i r : nat) :
  ((i + 1) * n <= A)%nat ->
  in_slice A (Some (Z.of_nat i * Z.of_nat n)) (Some ((Z.of_nat i + 1) * Z.of_nat n)) r
  = ((i * n <=? r) && (r <? (i + 1) * n))%nat.
Proof.
  intros HA. unfold in_slice, slice_norm.
  rewrite (proj2 (Z.ltb_ge (Z.of_nat i * Z.of_nat n) 0)) by nia.
  rewrite (proj2 (Z.ltb_ge ((Z.of_nat i + 1) * Z.of_nat n) 0)) by nia.
  rewrite (Z.min_l (Z.of_nat i * Z.of_nat n)) by nia.
  rewrite (Z.min_l ((Z.of_nat i + 1) * Z.of_nat n)) by nia.
  destruct (Z.leb_spec (Z.of_nat i * Z.of_nat n) (Z.of_nat r));
  destruct (Z.ltb_spec (Z.of_nat r) ((Z.of_nat i + 1) * Z.of_nat n));
  destruct (Nat.leb_spec (i * n) r); destruct (Nat.ltb_spec r ((i + 1) * n));
  simpl; try reflexivity; nia.
Qed.

Lemma block_div (n i r : nat) :
  (0 < n)%nat -> ((i * n <=? r) && (r <? (i + 1) * n))%nat = Nat.eqb (r / n) i.
Proof.
  intros Hn.
  destruct (Nat.leb_spec (i * n) r); destruct (Nat.ltb_spec r ((i + 1) * n));
    destruct (Nat.eqb_spec (r / n) i); simpl; try reflexivity.
  - exfalso. apply n0. symmetry. apply (Nat.div_unique _ _ _ (r - i * n)); nia.
  - subst i. pose proof (Nat.div_mod r n). pose proof (Nat.mod_upper_bound r n). nia.
  - subst i. pose proof (Nat.div_mod r n). pose proof (Nat.mod_upper_bound r n). nia.
  - subst i. pose proof (Nat.div_mod r n). pose proof (Nat.mod_upper_bound r n). nia.
Qed.

Lemma fold_point_lookup {X} (f : ndarray fval -> X -> ndarray fval) (L : list X)
    (hit : X -> bool) (g : nat) (v : fval) (sh : list nat) (o : ndarray fval) (w : fval) :
  (forall x, In x L -> forall o w, shape o = sh -> buf o !! g = Some w ->
     shape (f o x) = sh /\ buf (f o x) !! g = Some (if hit x then v else w)) ->
  shape o = sh -> buf o !! g = Some w ->
  buf (fold_left f L o) !! g = Some (if existsb hit L then v else w).
Proof. intros Hf Hsh Hg. by apply (fold_point f L hit g v sh Hf o w). Qed.

Lemma extend_fill_shape (array out : ndarray fval) (num : Z) :
  shape (extend_fill array out num) = shape out /\
  length (buf (extend_fill array out num)) = length (buf out).
Proof.
  unfold extend_fill.
  apply (fold_left_inv (fun o => shape o = shape out /\ length (buf o) = length (buf out)));
    [|done].
  intros o i Ho. apply fold_left_inv; [|done]. intros o' j Ho'.
  destruct (Nat.eqb _ 3).
  - apply fold_left_inv; [|done]. intros o'' zz [H1 H2].
    destruct (assign_block_shape o'' [zz] (Z.of_nat i * num) ((Z.of_nat i + 1) * num)
                (Z.of_nat j * num) ((Z.of_nat j + 1) * num) (nd_get array [zz; i; j])).
    split; congruence.
  - destruct (Nat.eqb _ 2); [|done]. destruct Ho' as [H1 H2].
    destruct (assign_block_shape o' [] (Z.of_nat i * num) ((Z.of_nat i + 1) * num)
                (Z.of_nat j * num) ((Z.of_nat j + 1) * num) (nd_get array [i; j])).
    split; congruence.
Qed.

Lemma extend_fill_3d_lookup (array out : ndarray fval) (s0 s1 s2 n g : nat) (w : fval) :
  shape array = [s0; s1; s2] -> shape out = [s0; n * s1; n * s2]%nat -> (0 < n)%nat ->
  (g < size (shape out))%nat -> buf out !! g = Some w ->
  buf (extend_fill array out (Z.of_nat n)) !! g =
  Some (nd_get array [nth 0 (unravel (shape out) g) 0%nat;
                      nth 1 (unravel (shape out) g) 0%nat / n;
                      nth 2 (unravel (shape out) g) 0%nat / n]%nat).
Proof.
  intros Hsh Hout Hn Hg Hw.
  pose proof (unravel_lt (shape out) g 0 Hg ltac:(rewrite Hout; simpl; lia)) as B0.
  pose proof (unravel_lt (shape out) g 1 Hg ltac:(rewrite Hout; simpl; lia)) as B1.
  pose proof (unravel_lt (shape out) g 2 Hg ltac:(rewrite Hout; simpl; lia)) as B2.
  assert (length (unravel (shape out) g) = 3%nat) as Hlen by (rewrite unravel_length, Hout; done).
  destruct (unravel (shape out) g) as [|z [|r [|c [|]]]] eqn:Eu; simpl in Hlen; try lia.
  rewrite Hout in B0, B1, B2. cbn [nth] in B0, B1, B2 |- *.
  unfold extend_fill. rewrite Hsh. cbn [length nth Nat.sub Nat.eqb].
  set (v := nd_get array [z; r / n; c / n]%nat).
  set (hit3 := fun i j zz : nat => ((zz =? z) && (r / n =? i) && (c / n =? j))%nat).
  rewrite (fold_point_lookup _ (seq 0 s1)
             (fun i => existsb (fun j => existsb (hit3 i j) (seq 0 s0)) (seq 0 s2))
             g v (shape out) out w); [| |done|done].
  - assert (existsb (fun i => existsb (fun j => existsb (hit3 i j) (seq 0 s0)) (seq 0 s2))
              (seq 0 s1) = true) as ->; [|done].
    apply existsb_exists. exists (r / n)%nat. split.
    { apply in_seq. split; [lia|]. apply Nat.Div0.div_lt_upper_bound. lia. }
    apply existsb_exists. exists (c / n)%nat. split.
    { apply in_seq. split; [lia|]. apply Nat.Div0.div_lt_upper_bound. lia. }
    apply existsb_exists. exists z. split; [apply in_seq; lia|].
    unfold hit3. by rewrite !Nat.eqb_refl.
  - intros i Hi o w' Ho Hw'. apply in_seq in Hi.
    apply (fold_point _ _ (fun j => existsb (hit3 i j) (seq 0 s0)) g v (shape out));
      [|done|done].
    intros j Hj o' w'' Ho' Hw''. apply in_seq in Hj.
    apply (fold_point _ _ (hit3 i j) g v (shape out)); [|done|done].
    intros zz Hzz o'' w3 Ho'' Hw3. split; [by rewrite (proj1 (assign_block_shape _ _ _ _ _ _ _))|].
    rewrite (assign_block_lookup _ _ _ _ _ _ _ _ _ Hw3), Ho'', Eu, Hout. cbn [length take nth].
    rewrite (in_slice_block (n * s1) n i r) by nia.
    rewrite (in_slice_block (n * s2) n j c) by nia. rewrite !block_div by done.
    unfold hit3, list_eqb.
    destruct (Nat.eqb_spec zz z) as [->|Hne]; simpl.
    + rewrite bool_decide_true by done. simpl.
      destruct (Nat.eqb_spec (r / n) i) as [<-|]; destruct (Nat.eqb_spec (c / n) j) as [<-|];
        simpl; done.
    + rewrite bool_decide_false by congruence. done.
Qed.

Lemma extend_fill_2d_lookup (array out : ndarray fval) (s0 s1 n g : nat) (w : fval) :
  shape array = [s0; s1] -> shape out = [n * s0; n * s1]%nat -> (0 < n)%nat ->
  (g < size (shape out))%nat -> buf out !! g = Some w ->
  buf (extend_fill array out (Z.of_nat n)) !! g =
  Some (nd_get array [nth 0 (unravel (shape out) g) 0%nat / n;
                      nth 1 (unravel (shape out) g) 0%nat / n]%nat).
Proof.
  intros Hsh Hout Hn Hg Hw.
  pose proof (unravel_lt (shape out) g 0 Hg ltac:(rewrite Hout; simpl; lia)) as B0.
  pose proof (unravel_lt (shape out) g 1 Hg ltac:(rewrite Hout; simpl; lia)) as B1.
  assert (length (unravel (shape out) g) = 2%nat) as Hlen by (rewrite unravel_length, Hout; done).
  destruct (unravel (shape out) g) as [|r [|c [|]]] eqn:Eu; simpl in Hlen; try lia.
  rewrite Hout in B0, B1. cbn [nth] in B0, B1 |- *.
  unfold extend_fill. rewrite Hsh. cbn [length nth Nat.sub Nat.eqb].
  set (v := nd_get array [r / n; c / n]%nat).
  set (hit2 := fun i j : nat => ((r / n =? i) && (c / n =? j))%nat).
  rewrite (fold_point_lookup _ (seq 0 s0) (fun i => existsb (hit2 i) (seq 0 s1))
             g v (shape out) out w); [| |done|done].
  - assert (existsb (fun i => existsb (hit2 i) (seq 0 s1)) (seq 0 s0) = true) as ->; [|done].
    apply existsb_exists. exists (r / n)%nat. split.
    { apply in_seq. split; [lia|]. apply Nat.Div0.div_lt_upper_bound. lia. }
    apply existsb_exists. exists (c / n)%nat. split.
    { apply in_seq. split; [lia|]. apply Nat.Div0.div_lt_upper_bound. lia. }
    unfold hit2. by rewrite !Nat.eqb_refl.
  - intros i Hi o w' Ho Hw'. apply in_seq in Hi.
    apply (fold_point _ _ (hit2 i) g v (shape out)); [|done|done].
    intros j Hj o' w'' Ho' Hw''. apply in_seq in Hj.
    split; [by rewrite (proj1 (assign_block_shape _ _ _ _ _ _ _))|].
    rewrite (assign_block_lookup _ _ _ _ _ _ _ _ _ Hw''), Ho', Eu, Hout. cbn [length take nth].
    rewrite (in_slice_block (n * s0) n i r) by nia.
    rewrite (in_slice_block (n * s1) n j c) by nia. rewrite !block_div by done.
    unfold hit2. simpl.
    destruct (Nat.eqb_spec (r / n) i) as [<-|]; destruct (Nat.eqb_spec (c / n) j) as [<-|];
      simpl; done.
Qed.


(** [extend] without smoothing on a 3-D array and [num >= 0]: the result
    has shape [(s0, num*s1, num*s2)], and each cell [(z, r, c)] holds
    [array[z, r // num, c // num]]: every pixel of each plane becomes a
    [num x num] block. *)
Theorem extend_3d_blocks {Kernel : Type} (make_2dgaussian_kernel : Z -> Z -> result Kernel)
    (convolve2d : ndarray fval -> Kernel -> ndarray fval)
    (array : ndarray fval) (s0 s1 s2 : nat) (num : Z) :
  shape array = [s0; s1; s2] -> 0 <= num ->
  exists out,
    extend Kernel make_2dgaussian_kernel convolve2d array num false = Ok out /\
    shape out = [s0; Z.to_nat num * s1; Z.to_nat num * s2]%nat /\
    length (buf out) = size (shape out) /\
    forall z r c : nat,
      (z < s0)%nat -> (r < Z.to_nat num * s1)%nat -> (c < Z.to_nat num * s2)%nat ->
      nd_get out [z; r; c] = nd_get array [z; r / Z.to_nat num; c / Z.to_nat num]%nat.
Proof.
  intros Hsh Hnum. destruct (Z_of_nat_complete num Hnum) as [n ->]. rewrite !Nat2Z.id.
  set (sh := [s0; n * s1; n * s2]%nat).
  set (out0 := mk_nd sh (repeat (Fin 0) (size sh))).
  assert (zeros [Z.of_nat s0; Z.of_nat n * Z.of_nat s1; Z.of_nat n * Z.of_nat s2] = Ok out0)
    as Ez.
  { unfold zeros. cbn [existsb].
    rewrite (proj2 (Z.ltb_ge (Z.of_nat s0) 0)), (proj2 (Z.ltb_ge (Z.of_nat n * Z.of_nat s1) 0)),
      (proj2 (Z.ltb_ge (Z.of_nat n * Z.of_nat s2) 0)) by nia.
    cbn [orb map]. rewrite <- !Nat2Z.inj_mul, !Nat2Z.id. reflexivity. }
  exists (extend_fill array out0 (Z.of_nat n)).
  destruct (extend_fill_shape array out0 (Z.of_nat n)) as [Es El].
  split; [|split; [done|split]].
  - unfold extend. rewrite Hsh. cbn [length map nth Nat.eqb]. rewrite Ez. reflexivity.
  - rewrite El, Es. simpl. by rewrite repeat_length.
  - intros z r c Hz Hr Hc. assert (0 < n)%nat by nia.
    destruct (unravel_ravel sh [z; r; c]) as [Hu Hg].
    { constructor; [lia|]. constructor; [lia|]. constructor; [lia|]. constructor. }
    unfold nd_get at 1. rewrite Es.
    rewrite (nth_lookup_Some _ _ _ _
               (extend_fill_3d_lookup array out0 s0 s1 s2 n _ (Fin 0) Hsh eq_refl H Hg
                  (lookup_repeat_lt _ _ _ Hg))).
    simpl shape. by rewrite Hu.
Qed.

Lemma extend_3d_blocks_witness :
  exists out,
    extend unit (fun _ _ => Ok tt) (fun a _ => a) ext_arr3 2 false = Ok out /\
    nd_get out [1; 3; 2]%nat = Fin 7.
Proof.
  destruct (extend_3d_blocks (fun _ _ => Ok tt) (fun a _ => a) ext_arr3 2 2 2 2
              eq_refl ltac:(lia)) as (out & E & _ & _ & Hv).
  exists out. split; [exact E|].
  rewrite Hv by (vm_compute; lia). vm_compute. reflexivity.
Defined.

(** [extend] without smoothing on a 2-D array and [num >= 0]: shape
    [(num*s0, num*s1)], cell [(r, c)] holds [array[r // num][c // num]]. *)
Theorem extend_2d_blocks {Kernel : Type} (make_2dgaussian_kernel : Z -> Z -> result Kernel)
    (convolve2d : ndarray fval -> Kernel -> ndarray fval)
    (array : ndarray fval) (s0 s1 : nat) (num : Z) :
  shape array = [s0; s1] -> 0 <= num ->
  exists out,
    extend Kernel make_2dgaussian_kernel convolve2d array num false = Ok out /\
    shape out = [Z.to_nat num * s0; Z.to_nat num * s1]%nat /\
    length (buf out) = size (shape out) /\
    forall r c : nat,
      (r < Z.to_nat num * s0)%nat -> (c < Z.to_nat num * s1)%nat ->
      nd_get out [r; c] = nd_get array [r / Z.to_nat num; c / Z.to_nat num]%nat.
Proof.
  intros Hsh Hnum. destruct (Z_of_nat_complete num Hnum) as [n ->]. rewrite !Nat2Z.id.
  set (sh := [n * s0; n * s1]%nat).
  set (out0 := mk_nd sh (repeat (Fin 0) (size sh))).
  assert (zeros [Z.of_nat n * Z.of_nat s0; Z.of_nat n * Z.of_nat s1] = Ok out0) as Ez.
  { unfold zeros. cbn [existsb].
    rewrite (proj2 (Z.ltb_ge (Z.of_nat n * Z.of_nat s0) 0)),
      (proj2 (Z.ltb_ge (Z.of_nat n * Z.of_nat s1) 0)) by nia.
    cbn [orb map]. rewrite <- !Nat2Z.inj_mul, !Nat2Z.id. reflexivity. }
  exists (extend_fill array out0 (Z.of_nat n)).
  destruct (extend_fill_shape array out0 (Z.of_nat n)) as [Es El].
  split; [|split; [done|split]].
  - unfold extend. rewrite Hsh. cbn [length map nth Nat.eqb]. rewrite Ez. reflexivity.
  - rewrite El, Es. simpl. by rewrite repeat_length.
  - intros r c Hr Hc. assert (0 < n)%nat by nia.
    destruct (unravel_ravel sh [r; c]) as [Hu Hg].
    { constructor; [lia|]. constructor; [lia|]. constructor. }
    unfold nd_get at 1. rewrite Es.
    rewrite (nth_lookup_Some _ _ _ _
               (extend_fill_2d_lookup array out0 s0 s1 n _ (Fin 0) Hsh eq_refl H Hg
                  (lookup_repeat_lt _ _ _ Hg))).
    simpl shape. by rewrite Hu.
Qed.

Lemma extend_2d_blocks_witness :
  exists out,
    extend unit (fun _ _ => Ok tt) (fun a _ => a) ext_arr2 2 false = Ok out /\
    nd_get out [3; 5]%nat = Fin 5.
Proof.
  destruct (extend_2d_blocks (fun _ _ => Ok tt) (fun a _ => a) ext_arr2 2 3 2
              eq_refl ltac:(lia)) as (out & E & _ & _ & Hv).
  exists out. split; [exact E|].
  rewrite Hv by (vm_compute; lia). vm_compute. reflexivity.
Defined.

(** [extend] errors: an array of rank other than 2 or 3 raises
    [ValueError("Dimension must be 2 or 3.")]; a negative [num] with a
    nonempty axis to stretch makes [np.zeros] raise its negative
    dimension error.  Both happen before any smoothing. *)
Theorem extend_errors {Kernel : Type} (make_2dgaussian_kernel : Z -> Z -> result Kernel)
    (convolve2d : ndarray fval -> Kernel -> ndarray fval)
    (array : ndarray fval) (num : Z) (smooth : bool) :
  (length (shape array) <> 2%nat -> length (shape array) <> 3%nat ->
     extend Kernel make_2dgaussian_kernel convolve2d array num smooth
     = Err (ValueError "Dimension must be 2 or 3.")) /\
  (length (shape array) = 3%nat -> num < 0 ->
     (0 < nth 1 (shape array) 0 \/ 0 < nth 2 (shape array) 0)%nat ->
     extend Kernel make_2dgaussian_kernel convolve2d array num smooth
     = Err (ValueError "negative dimensions are not allowed")) /\
  (length (shape array) = 2%nat -> num < 0 ->
     (0 < nth 0 (shape array) 0 \/ 0 < nth 1 (shape array) 0)%nat ->
     extend Kernel make_2dgaussian_kernel convolve2d array num smooth
     = Err (ValueError "negative dimensions are not allowed")).
Proof.
  unfold extend. split; [|split].
  - intros H2 H3. apply Nat.eqb_neq in H2, H3. rewrite H2, H3. reflexivity.
  - intros H3 Hn Hpos. rewrite H3. cbn [Nat.eqb].
    destruct (shape array) as [|s0 [|s1 [|s2 [|]]]]; simpl in H3; try lia.
    cbn [map nth] in *. unfold zeros.
    assert (existsb (fun m => m <? 0)
              [Z.of_nat s0; num * Z.of_nat s1; num * Z.of_nat s2] = true) as ->.
    { apply existsb_exists. destruct Hpos.
      - exists (num * Z.of_nat s1). split; [simpl; tauto|]. apply Z.ltb_lt. nia.
      - exists (num * Z.of_nat s2). split; [simpl; tauto|]. apply Z.ltb_lt. nia. }
    reflexivity.
  - intros H2 Hn Hpos. rewrite H2. cbn [Nat.eqb].
    destruct (shape array) as [|s0 [|s1 [|]]]; simpl in H2; try lia.
    cbn [map nth] in *. unfold zeros.
    assert (existsb (fun m => m <? 0) [num * Z.of_nat s0; num * Z.of_nat s1] = true) as ->.
    { apply existsb_exists. destruct Hpos.
      - exists (num * Z.of_nat s0). split; [simpl; tauto|]. apply Z.ltb_lt. nia.
      - exists (num * Z.of_nat s1). split; [simpl; tauto|]. apply Z.ltb_lt. nia. }
    reflexivity.
Qed.


Lemma extend_errors_witness :
  extend unit (fun _ _ => Ok tt) (fun a _ => a) ext_arr1 2 false
    = Err (ValueError "Dimension must be 2 or 3.") /\
  extend unit (fun _ _ => Ok tt) (fun a _ => a) ext_arr3 (-1) true
    = Err (ValueError "negative dimensions are not allowed") /\
  extend unit (fun _ _ => Ok tt) (fun a _ => a) ext_arr2 (-1) false
    = Err (ValueError "negative dimensions are not allowed").
Proof.
  split; [|split].
  - apply (proj1 (extend_errors (fun _ _ => Ok tt) (fun a _ => a) ext_arr1 2 false));
      vm_compute; congruence.
  - apply (proj1 (proj2 (extend_errors (fun _ _ => Ok tt) (fun a _ => a) ext_arr3 (-1) true)));
      [vm_compute; reflexivity | lia | left; vm_compute; lia].
  - apply (proj2 (proj2 (extend_errors (fun _ _ => Ok tt) (fun a _ => a) ext_arr2 (-1) false)));
      [vm_compute; reflexivity | lia | left; vm_compute; lia].
Defined.

Lemma nth_map_lt {A B} (g : A -> B) (l : list A) (i : nat) (d : A) (d' : B) :
  (i < length l)%nat -> nth i (map g l) d' = g (nth i l d).
Proof. intros H. rewrite (nth_indep _ d' (g d)) by (rewrite length_map; lia). apply map_nth. Qed.

Lemma omap_zip_seq_sorted (l : list bool) (s : nat) :
  StronglySorted lt (omap (fun '(f, b) => if (b : bool) then Some f else None)
                       (zip (seq s (length l)) l)) /\
  Forall (fun f => s <= f)%nat (omap (fun '(f, b) => if (b : bool) then Some f else None)
                                  (zip (seq s (length l)) l)).
Proof.
  revert s; induction l as [|b l IH]; intros s; simpl; [split; constructor|].
  destruct (IH (S s)) as [H1 H2]. destruct b; simpl.
  - split; constructor; [done| |lia|].
    + eapply List.Forall_impl; [|exact H2]. simpl. lia.
    + eapply List.Forall_impl; [|exact H2]. simpl. lia.
  - split; [done|]. eapply List.Forall_impl; [|exact H2]. simpl. lia.
Qed.

Lemma true_positions_sorted (m : ndarray bool) : StronglySorted lt (true_positions m).
Proof. apply (omap_zip_seq_sorted (buf m) 0). Qed.

Lemma StronglySorted_lt_NoDup (l : list nat) : StronglySorted lt l -> NoDup l.
Proof.
  induction 1 as [|a l _ IH Ha]; constructor; [|done].
  intros Hin. rewrite list_elem_of_In in Hin. rewrite List.Forall_forall in Ha.
  specialize (Ha a Hin). lia.
Qed.

Lemma select_idx_NoDup (argsort : list fval -> list nat) (Hsort : argsort_sorts argsort)
    (k : nat) (pv : list fval) : NoDup (select_idx argsort k pv).
Proof.
  unfold select_idx.
  assert (NoDup (reverse (argsort pv))) as H.
  { apply NoDup_ListNoDup.
    eapply Permutation_NoDup; [symmetry; apply reverse_Permutation|].
    eapply Permutation_NoDup; [symmetry; apply (proj1 (Hsort pv))|]. apply seq_NoDup. }
  rewrite <- (take_drop k (reverse (argsort pv))) in H.
  by apply NoDup_app in H as [? _].
Qed.

Lemma take_at_map {A B} (d : B) (d0 : A) (g : A -> B) (P : list A) (idx : list nat) :
  (forall i, In i idx -> (i < length P)%nat) ->
  take_at d (map g P) idx = map g (map (fun i => nth i P d0) idx).
Proof.
  intros H. unfold take_at. rewrite map_map. apply map_ext_in. intros i Hi.
  apply nth_map_lt. auto.
Qed.

Section Rows.
Context {Sky PyObj : Type} (callable : PyObj -> bool).
Context (centroid_sources : result (ndarray fval -> list fval -> list fval -> nat ->
  option (ndarray bool) -> option (ndarray fval) -> option (ndarray bool) -> PyObj ->
  result (list fval * list fval))).
Context (argsort : list fval -> list nat) (Hsort : argsort_sorts argsort).

Lemma build_table_cols (data : ndarray fval) (z y x : list nat) (pv : list fval)
    (box_size : nat) (footprint mask : option (ndarray bool))
    (centroid_func : option PyObj) (error : option (ndarray fval))
    (wcs : option (wcs_t Sky)) (t : table Sky) :
  build_table callable centroid_sources data z y x pv box_size footprint mask
    centroid_func error wcs = Ok t ->
  col_of t "z_peak" = Some (IntCol z) /\ col_of t "y_peak" = Some (IntCol y) /\
  col_of t "x_peak" = Some (IntCol x) /\ col_of t "peak_value" = Some (FloatCol pv).
Proof.
  unfold build_table.
  destruct wcs as [w|].
  - destruct (w (as_float x) (as_float y)) as [sk|]; simpl; [|done].
    destruct centroid_func as [cf|].
    + destruct centroid_sources as [cs|]; simpl; [|done].
      destruct (callable cf); simpl; [|done].
      destruct (cs _ _ _ _ _ _ _ _) as [[xc yc]|]; simpl; [|done].
      destruct (w xc yc) as [sk2|]; simpl; [|done].
      intros H. injection H as <-. vm_compute. repeat split.
    + intros H. injection H as <-. vm_compute. repeat split.
  - simpl. destruct centroid_func as [cf|].
    + destruct centroid_sources as [cs|]; simpl; [|done].
      destruct (callable cf); simpl; [|done].
      destruct (cs _ _ _ _ _ _ _ _) as [[xc yc]|]; simpl; [|done].
      intros H. injection H as <-. vm_compute. repeat split.
    + intros H. injection H as <-. vm_compute. repeat split.
Qed.

(** The four peak columns of a successful run: the cells of a list [L]
    of flat indices, all distinct and all True in the final mask, which
    is the whole [nonzero()] list when [npeaks] does not cut it. *)
Lemma find_peaks_on_columns (data : ndarray fval) (threshold : fval) (box_size : nat)
    (footprint mask : option (ndarray bool)) (border_width : option Z)
    (npeaks : option nat) (centroid_func : option PyObj) (error : option (ndarray fval))
    (wcs : option (wcs_t Sky)) (t : table Sky) :
  length (buf data) = size (shape data) ->
  find_peaks_on callable centroid_sources argsort data threshold box_size footprint mask
    border_width npeaks centroid_func error wcs = Ok t ->
  exists m L,
    peak_goodmask data threshold box_size footprint mask border_width = Ok m /\
    shape m = shape data /\ ndim data = 3%nat /\ NoDup L /\
    (forall f, f ∈ L -> f ∈ true_positions m /\ (f < size (shape data))%nat) /\
    ((forall k, npeaks = Some k -> (length (true_positions m) <= k)%nat) ->
       L = true_positions m) /\
    (forall k, npeaks = Some k -> (length L <= k)%nat) /\
    col_of t "z_peak" = Some (IntCol (map (fun f => nth 0 (unravel (shape data) f) 0%nat) L)) /\
    col_of t "y_peak" = Some (IntCol (map (fun f => nth 1 (unravel (shape data) f) 0%nat) L)) /\
    col_of t "x_peak" = Some (IntCol (map (fun f => nth 2 (unravel (shape data) f) 0%nat) L)) /\
    col_of t "peak_value" = Some (FloatCol (map (fun f => nth f (buf data) NaN) L)).
Proof.
  intros Hwf H.
  apply find_peaks_on_Ok_inv in H as (m & z & y & x & Epg & Enz & H).
  pose proof Epg as Epg'.
  apply peak_goodmask_Ok_inv in Epg' as (data_max & pg0 & _ & Em & Hm).
  assert (shape m = shape data) as Hsh by (rewrite Hm; eapply working_shape; exact Em).
  assert (length (buf m) <= length (buf data))%nat as Hlen.
  { rewrite Hm. unfold threshold_step, nd_zip, nd_map. simpl.
    rewrite length_zip_with, length_map. lia. }
  rewrite (gather3_nonzero3 data m z y x Hwf Hsh Hlen Enz) in H.
  unfold nonzero3 in Enz. destruct (Nat.eqb_spec (ndim m) 3) as [H3|]; [|done].
  injection Enz as <- <- <-.
  assert (ndim data = 3%nat) as H3' by (unfold ndim in *; by rewrite <- Hsh).
  rewrite Hsh, !map_map in H.
  set (P := true_positions m) in *.
  pose proof (StronglySorted_lt_NoDup _ (true_positions_sorted m)) as HP.
  enough (exists L,
            build_table callable centroid_sources data
              (map (fun f => nth 0 (unravel (shape data) f) 0%nat) L)
              (map (fun f => nth 1 (unravel (shape data) f) 0%nat) L)
              (map (fun f => nth 2 (unravel (shape data) f) 0%nat) L)
              (map (fun f => nth f (buf data) NaN) L) box_size footprint mask
              centroid_func error wcs = Ok t /\
            NoDup L /\ (forall f, f ∈ L -> f ∈ P) /\
            ((forall k, npeaks = Some k -> (length P <= k)%nat) -> L = P) /\
            (forall k, npeaks = Some k -> (length L <= k)%nat))
    as (L & HB & HL & Hsub & Hall & Hk).
  { exists m, L. destruct (build_table_cols _ _ _ _ _ _ _ _ _ _ _ _ HB) as (C1 & C2 & C3 & C4).
    do 4 (split; [done|]). split.
    { intros f Hf. split; [by apply Hsub|]. apply Hsub, true_positions_elem, lookup_lt_Some in Hf.
      lia. }
    do 5 (split; [done|]). done. }
  unfold truncate in H. destruct npeaks as [k|].
  - match type of H with context [Nat.ltb k ?n] => destruct (Nat.ltb_spec k n) as [Hk|Hk] end;
      cbv beta iota in H.
    + set (idx := select_idx argsort k (map (fun f => nth f (buf data) NaN) P)) in H.
      assert (forall i, In i idx -> (i < length P)%nat) as Hb.
      { intros i Hi. apply list_elem_of_In, (select_idx_bound argsort Hsort) in Hi. by rewrite length_map in Hi. }
      rewrite !(take_at_map _ 0%nat _ P idx Hb) in H.
      exists (map (fun i => nth i P 0%nat) idx). split; [exact H|]. split; [|split].
      * apply NoDup_ListNoDup, NoDup_map_NoDup_ForallPairs;
          [|apply NoDup_ListNoDup, (select_idx_NoDup argsort Hsort)].
        intros a b Ha Hb' E. apply Hb in Ha, Hb'.
        destruct (nth_lookup_or_length P a 0%nat) as [Ea|]; [|lia].
        destruct (nth_lookup_or_length P b 0%nat) as [Eb|]; [|lia].
        rewrite E in Ea. eapply NoDup_lookup; [exact HP|exact Ea|exact Eb].
      * intros f Hf. apply list_elem_of_In, in_map_iff in Hf as (i & <- & Hi).
        apply list_elem_of_In, nth_In. by apply Hb.
      * split.
        -- intros Hall. specialize (Hall k eq_refl). rewrite length_map in Hk. lia.
        -- intros k' [= <-]. unfold idx, select_idx. rewrite length_map, length_take. lia.
    + exists P. split; [exact H|]. split; [done|]. split; [done|]. split; [done|].
      intros k' [= <-]. rewrite length_map in Hk. lia.
  - exists P. split; [exact H|]. split; [done|]. split; [done|]. split; [done|]. done.
Qed.

End Rows.

Lemma nan_sanitized_wf (d : ndarray fval) :
  length (buf d) = size (shape d) ->
  length (buf (nan_sanitized d)) = size (shape (nan_sanitized d)).
Proof. intros H. unfold nan_sanitized. simpl. by rewrite length_map. Qed.

Lemma row_of_columns {Sky} (t : table Sky) (sh : list nat) (b : list fval) (L : list nat) :
  col_of t "z_peak" = Some (IntCol (map (fun f => nth 0 (unravel sh f) 0%nat) L)) ->
  col_of t "y_peak" = Some (IntCol (map (fun f => nth 1 (unravel sh f) 0%nat) L)) ->
  col_of t "x_peak" = Some (IntCol (map (fun f => nth 2 (unravel sh f) 0%nat) L)) ->
  col_of t "peak_value" = Some (FloatCol (map (fun f => nth f b NaN) L)) ->
  forall i, row_of t i =
    (fun f => (nth 0 (unravel sh f) 0%nat, nth 1 (unravel sh f) 0%nat,
               nth 2 (unravel sh f) 0%nat, nth f b NaN)) <$> L !! i.
Proof.
  intros C1 C2 C3 C4 i. unfold row_of. rewrite C1, C2, C3, C4. rewrite !lookup_map_std.
  by destruct (L !! i).
Qed.

(** The rows of a successful call: row [i] is the cell [L !! i] of the
    working array, for a list [L] of distinct flat indices that are True in
    the final mask; [L] is that mask's whole [nonzero()] list when
    [npeaks] does not cut it. *)
Lemma find_peaks_rows {Sky PyObj : Type} (callable : PyObj -> bool)
    (centroid_sources : result (ndarray fval -> list fval -> list fval -> nat ->
       option (ndarray bool) -> option (ndarray fval) -> option (ndarray bool) -> PyObj ->
       result (list fval * list fval)))
    (argsort : list fval -> list nat) (Hsort : argsort_sorts argsort)
    (h : heap) (a : nat) (threshold : fval) (box_size : nat)
    (footprint mask : option (ndarray bool)) (border_width : option Z)
    (npeaks : option nat) (centroid_func : option PyObj) (error : option (ndarray fval))
    (wcs : option (wcs_t Sky)) (d : ndarray fval) (t : table Sky) :
  h !! a = Some d -> length (buf d) = size (shape d) ->
  fst (find_peaks callable centroid_sources argsort h a threshold box_size footprint mask
         border_width npeaks centroid_func error wcs) = Ok t ->
  exists m L,
    peak_goodmask (nan_sanitized d) threshold box_size footprint mask border_width = Ok m /\
    shape m = shape d /\ ndim d = 3%nat /\ NoDup L /\
    (forall f, f ∈ L -> f ∈ true_positions m /\ (f < size (shape d))%nat) /\
    ((forall k, npeaks = Some k -> (length (true_positions m) <= k)%nat) ->
       L = true_positions m) /\
    (forall k, npeaks = Some k -> (length L <= k)%nat) /\
    forall i, row_of t i =
      (fun f => (nth 0 (unravel (shape d) f) 0%nat, nth 1 (unravel (shape d) f) 0%nat,
                 nth 2 (unravel (shape d) f) 0%nat, nth f (buf (nan_sanitized d)) NaN))
        <$> L !! i.
Proof.
  intros Ha Hwf H. rewrite (find_peaks_fst _ _ _ _ _ _ _ _ _ _ _ _ _ _ d Ha) in H.
  destruct (find_peaks_on_columns callable centroid_sources argsort Hsort _ _ _ _ _ _ _ _ _ _ _
              (nan_sanitized_wf d Hwf) H)
    as (m & L & Epg & Hsh & H3 & HL & Hsub & Hall & Hk & C1 & C2 & C3 & C4).
  exists m, L. do 7 (split; [done|]).
  by apply row_of_columns.
Qed.

(* ----------------------------------------------------------------- *)
(** ** Back from the final mask to the candidate mask *)

Lemma clear_axis_slice_length ax lo hi (m : ndarray bool) :
  length (buf (clear_axis_slice ax lo hi m)) = length (buf m).
Proof. unfold clear_axis_slice. simpl. by rewrite length_imap. Qed.

Lemma border_fold_length (b : Z) (L : list nat) (m : ndarray bool) :
  length (buf (fold_left (border_axis_step b) L m)) = length (buf m).
Proof.
  revert m; induction L as [|i L IH]; intros m; simpl; [done|].
  rewrite IH. unfold border_axis_step. by rewrite !clear_axis_slice_length.
Qed.

Lemma apply_border_true (bw : option Z) (pg : ndarray bool) (f : nat) :
  buf (apply_border bw pg) !! f = Some true -> buf pg !! f = Some true.
Proof.
  destruct bw as [b|]; simpl; [|done]. unfold border_step. fold (border_axis_step b).
  intros H. destruct (buf pg !! f) as [v|] eqn:E.
  - rewrite (border_fold_lookup _ _ _ _ v E) in H. injection H as H.
    apply andb_true_iff in H as [-> _]. done.
  - apply lookup_ge_None in E. rewrite <- (border_fold_length b (seq 0 (ndim pg))) in E.
    apply lookup_ge_None in E. congruence.
Qed.

Lemma threshold_step_pg (data : ndarray fval) (thr : fval) (pg : ndarray bool) (f : nat) :
  buf (threshold_step data thr pg) !! f = Some true -> buf pg !! f = Some true.
Proof.
  unfold threshold_step, nd_zip. simpl. intros H.
  apply lookup_zip_with_Some in H as (g & w & Hgw & Hg & _).
  symmetry in Hgw. apply andb_true_iff in Hgw as [-> _]. done.
Qed.

Lemma apply_mask_true (data : ndarray fval) (pg pg0 : ndarray bool)
    (mask : option (ndarray bool)) (f : nat) :
  apply_mask data pg mask = Ok pg0 -> buf pg0 !! f = Some true ->
  buf pg !! f = Some true /\ (forall mk, mask = Some mk -> buf mk !! f = Some false).
Proof.
  unfold apply_mask. destruct mask as [mk|].
  - destruct (list_eqb _ _); simpl; [|done]. intros [= <-] H. unfold nd_zip in H. simpl in H.
    apply lookup_zip_with_Some in H as (g & k & Hgk & Hg & Hk).
    symmetry in Hgk. apply andb_true_iff in Hgk as [-> Hk']. apply negb_true_iff in Hk'.
    subst k. split; [done|]. by intros mk' [= <-].
  - intros [= <-] H. split; [done|]. done.
Qed.

(** A cell reported by a successful run passed every stage: it is equal
    to the maximum filter's value there, and unmasked. *)
Lemma final_mask_true (data : ndarray fval) (threshold : fval) (box_size : nat)
    (footprint mask : option (ndarray bool)) (border_width : option Z) (m : ndarray bool)
    (f : nat) :
  peak_goodmask data threshold box_size footprint mask border_width = Ok m ->
  f ∈ true_positions m ->
  exists data_max v w,
    maximum_filter data box_size footprint = Ok data_max /\
    buf data !! f = Some v /\ buf data_max !! f = Some w /\ feq v w = true /\
    (forall mk, mask = Some mk -> buf mk !! f = Some false).
Proof.
  intros Epg Hf. apply true_positions_elem in Hf.
  apply peak_goodmask_Ok_inv in Epg as (data_max & pg0 & Emf & Em & ->).
  apply threshold_step_pg, apply_border_true in Hf.
  destruct (apply_mask_true _ _ _ _ f Em Hf) as [Hc Hmk].
  unfold candidate_mask, nd_zip in Hc. simpl in Hc.
  apply lookup_zip_with_Some in Hc as (v & w & Hvw & Hv & Hw).
  exists data_max, v, w. by repeat split.
Qed.

Lemma row_cell (d : ndarray fval) (f z y x : nat) (v : fval) :
  ndim d = 3%nat -> (f < size (shape d))%nat ->
  (nth 0 (unravel (shape d) f) 0%nat, nth 1 (unravel (shape d) f) 0%nat,
   nth 2 (unravel (shape d) f) 0%nat, nth f (buf (nan_sanitized d)) NaN) = (z, y, x, v) ->
  unravel (shape d) f = [z; y; x] /\ f = ravel (shape d) [z; y; x] /\
  v = nd_get (nan_sanitized d) [z; y; x].
Proof.
  intros H3 Hf H.
  assert (length (unravel (shape d) f) = 3%nat) as Hl by (rewrite unravel_length; done).
  pose proof (ravel_unravel (shape d) f Hf) as Hr.
  destruct (unravel (shape d) f) as [|z0 [|y0 [|x0 [|]]]] eqn:Eu; simpl in Hl; try lia.
  simpl in H. injection H as <- <- <- <-.
  split; [done|]. split; [done|]. unfold nd_get. simpl. by rewrite Hr.
Qed.

Lemma StronglySorted_lt_lookup (l : list nat) (i j a b : nat) :
  StronglySorted lt l -> l !! i = Some a -> l !! j = Some b -> (i < j)%nat -> (a < b)%nat.
Proof.
  intros HS. revert i j. induction HS as [|c l HS IH Hc]; intros i j Ha Hb Hij; [done|].
  destruct i as [|i], j as [|j]; simpl in *; try lia.
  - injection Ha as <-. rewrite List.Forall_forall in Hc. apply Hc.
    apply list_elem_of_In. by eapply list_elem_of_lookup_2.
  - apply (IH i j); [done|done|lia].
Qed.

(** Every row of a successful call on a rank-3 array names a cell inside
    the array, its [peak_value] is the working array's value at that cell,
    no two rows name the same cell, and the rows are numbered [0 .. n-1]. *)
Theorem find_peaks_rows_valid {Sky PyObj : Type} (callable : PyObj -> bool)
    (centroid_sources : result (ndarray fval -> list fval -> list fval -> nat ->
       option (ndarray bool) -> option (ndarray fval) -> option (ndarray bool) -> PyObj ->
       result (list fval * list fval)))
    (argsort : list fval -> list nat) (Hsort : argsort_sorts argsort)
    (h : heap) (a : nat) (threshold : fval) (box_size : nat)
    (footprint mask : option (ndarray bool)) (border_width : option Z)
    (npeaks : option nat) (centroid_func : option PyObj) (error : option (ndarray fval))
    (wcs : option (wcs_t Sky)) (d : ndarray fval) (s0 s1 s2 : nat) (t : table Sky) :
  h !! a = Some d -> shape d = [s0; s1; s2] -> length (buf d) = size (shape d) ->
  fst (find_peaks callable centroid_sources argsort h a threshold box_size footprint mask
         border_width npeaks centroid_func error wcs) = Ok t ->
  (exists n, forall i, is_Some (row_of t i) <-> (i < n)%nat) /\
  (forall i z y x v, row_of t i = Some (z, y, x, v) ->
     (z < s0 /\ y < s1 /\ x < s2)%nat /\ v = nd_get (nan_sanitized d) [z; y; x]) /\
  (forall i j z y x v w, row_of t i = Some (z, y, x, v) -> row_of t j = Some (z, y, x, w) ->
     i = j).
Proof.
  intros Ha Hsh Hwf H.
  destruct (find_peaks_rows _ _ _ Hsort _ _ _ _ _ _ _ _ _ _ _ d t Ha Hwf H)
    as (m & L & _ & _ & H3 & HL & Hsub & _ & _ & Hrow).
  split; [|split].
  - exists (length L). intros i. by rewrite Hrow, fmap_is_Some, lookup_lt_is_Some.
  - intros i z y x v Hi. rewrite Hrow in Hi.
    destruct (L !! i) as [f|] eqn:Ef; simpl in Hi; [|done]. apply (inj Some) in Hi.
    assert (f ∈ L) as Hf by (by eapply list_elem_of_lookup_2).
    destruct (Hsub f Hf) as [_ Hfs].
    destruct (row_cell d f z y x v H3 Hfs Hi) as (Eu & _ & Ev).
    split; [|done].
    pose proof (unravel_lt (shape d) f 0 Hfs ltac:(unfold ndim in H3; lia)) as B0.
    pose proof (unravel_lt (shape d) f 1 Hfs ltac:(unfold ndim in H3; lia)) as B1.
    pose proof (unravel_lt (shape d) f 2 Hfs ltac:(unfold ndim in H3; lia)) as B2.
    rewrite Eu in B0, B1, B2. rewrite Hsh in B0, B1, B2. simpl in B0, B1, B2. lia.
  - intros i j z y x v w Hi Hj. rewrite Hrow in Hi, Hj.
    destruct (L !! i) as [f|] eqn:Ef; simpl in Hi; [|done]. apply (inj Some) in Hi.
    destruct (L !! j) as [g|] eqn:Eg; simpl in Hj; [|done]. apply (inj Some) in Hj.
    destruct (Hsub f ltac:(by eapply list_elem_of_lookup_2)) as [_ Hfs].
    destruct (Hsub g ltac:(by eapply list_elem_of_lookup_2)) as [_ Hgs].
    destruct (row_cell d f z y x v H3 Hfs Hi) as (_ & Ff & _).
    destruct (row_cell d g z y x w H3 Hgs Hj) as (_ & Fg & _).
    rewrite <- Fg in Ff. subst g. eapply NoDup_lookup; [exact HL|exact Ef|exact Eg].
Qed.

(** With a mask, no reported cell is masked: [mask[z, y, x]] is False
    for every row [(z, y, x)] of a successful call. *)
Theorem find_peaks_masked_excluded {Sky PyObj : Type} (callable : PyObj -> bool)
    (centroid_sources : result (ndarray fval -> list fval -> list fval -> nat ->
       option (ndarray bool) -> option (ndarray fval) -> option (ndarray bool) -> PyObj ->
       result (list fval * list fval)))
    (argsort : list fval -> list nat) (Hsort : argsort_sorts argsort)
    (h : heap) (a : nat) (threshold : fval) (box_size : nat)
    (footprint : option (ndarray bool)) (mk : ndarray bool) (border_width : option Z)
    (npeaks : option nat) (centroid_func : option PyObj) (error : option (ndarray fval))
    (wcs : option (wcs_t Sky)) (d : ndarray fval) (t : table Sky) :
  h !! a = Some d -> length (buf d) = size (shape d) ->
  fst (find_peaks callable centroid_sources argsort h a threshold box_size footprint (Some mk)
         border_width npeaks centroid_func error wcs) = Ok t ->
  forall i z y x v, row_of t i = Some (z, y, x, v) ->
    buf mk !! ravel (shape d) [z; y; x] = Some false.
Proof.
  intros Ha Hwf H i z y x v Hi.
  destruct (find_peaks_rows _ _ _ Hsort _ _ _ _ _ _ _ _ _ _ _ d t Ha Hwf H)
    as (m & L & Epg & _ & H3 & _ & Hsub & _ & _ & Hrow).
  rewrite Hrow in Hi.
  destruct (L !! i) as [f|] eqn:Ef; simpl in Hi; [|done]. apply (inj Some) in Hi.
  destruct (Hsub f ltac:(by eapply list_elem_of_lookup_2)) as [Hp Hfs].
  destruct (row_cell d f z y x v H3 Hfs Hi) as (_ & Ff & _). rewrite <- Ff.
  destruct (final_mask_true _ _ _ _ _ _ _ f Epg Hp) as (_ & _ & _ & _ & _ & _ & _ & Hmk).
  by apply Hmk.
Qed.

(** Without [npeaks], the rows come in row-major scan order of their
    cells: [(z*s1 + y)*s2 + x] strictly increases from row to row. *)
Theorem find_peaks_scan_order {Sky PyObj : Type} (callable : PyObj -> bool)
    (centroid_sources : result (ndarray fval -> list fval -> list fval -> nat ->
       option (ndarray bool) -> option (ndarray fval) -> option (ndarray bool) -> PyObj ->
       result (list fval * list fval)))
    (argsort : list fval -> list nat) (Hsort : argsort_sorts argsort)
    (h : heap) (a : nat) (threshold : fval) (box_size : nat)
    (footprint mask : option (ndarray bool)) (border_width : option Z)
    (centroid_func : option PyObj) (error : option (ndarray fval))
    (wcs : option (wcs_t Sky)) (d : ndarray fval) (s0 s1 s2 : nat) (t : table Sky) :
  h !! a = Some d -> shape d = [s0; s1; s2] -> length (buf d) = size (shape d) ->
  fst (find_peaks callable centroid_sources argsort h a threshold box_size footprint mask
         border_width None centroid_func error wcs) = Ok t ->
  forall i j z y x v z' y' x' v',
    row_of t i = Some (z, y, x, v) -> row_of t j = Some (z', y', x', v') -> (i < j)%nat ->
    ((z * s1 + y) * s2 + x < (z' * s1 + y') * s2 + x')%nat.
Proof.
  intros Ha Hsh Hwf H i j z y x v z' y' x' v' Hi Hj Hij.
  destruct (find_peaks_rows _ _ _ Hsort _ _ _ _ _ _ _ _ _ _ _ d t Ha Hwf H)
    as (m & L & _ & _ & H3 & _ & Hsub & Hall & _ & Hrow).
  assert (L = true_positions m) as EL by (apply Hall; done).
  rewrite Hrow in Hi, Hj.
  destruct (L !! i) as [f|] eqn:Ef; simpl in Hi; [|done]. apply (inj Some) in Hi.
  destruct (L !! j) as [g|] eqn:Eg; simpl in Hj; [|done]. apply (inj Some) in Hj.
  destruct (Hsub f ltac:(by eapply list_elem_of_lookup_2)) as [_ Hfs].
  destruct (Hsub g ltac:(by eapply list_elem_of_lookup_2)) as [_ Hgs].
  destruct (row_cell d f z y x v H3 Hfs Hi) as (_ & Ff & _).
  destruct (row_cell d g z' y' x' v' H3 Hgs Hj) as (_ & Fg & _).
  rewrite EL in Ef, Eg.
  pose proof (StronglySorted_lt_lookup _ _ _ _ _ (true_positions_sorted m) Ef Eg Hij) as Hlt.
  rewrite Ff, Fg, Hsh in Hlt. cbn [ravel size foldr] in Hlt. nia.
Qed.

(** A NaN or [+inf] threshold: no sample is greater, so a successful
    call returns no row. *)
Theorem find_peaks_unreachable_threshold {Sky PyObj : Type} (callable : PyObj -> bool)
    (centroid_sources : result (ndarray fval -> list fval -> list fval -> nat ->
       option (ndarray bool) -> option (ndarray fval) -> option (ndarray bool) -> PyObj ->
       result (list fval * list fval)))
    (argsort : list fval -> list nat) (Hsort : argsort_sorts argsort)
    (h : heap) (a : nat) (threshold : fval) (box_size : nat)
    (footprint mask : option (ndarray bool)) (border_width : option Z)
    (npeaks : option nat) (centroid_func : option PyObj) (error : option (ndarray fval))
    (wcs : option (wcs_t Sky)) (d : ndarray fval) (t : table Sky) :
  h !! a = Some d -> length (buf d) = size (shape d) ->
  threshold = NaN \/ threshold = PInf ->
  fst (find_peaks callable centroid_sources argsort h a threshold box_size footprint mask
         border_width npeaks centroid_func error wcs) = Ok t ->
  forall i, row_of t i = None.
Proof.
  intros Ha Hwf Ht H i.
  destruct (find_peaks_rows _ _ _ Hsort _ _ _ _ _ _ _ _ _ _ _ d t Ha Hwf H)
    as (m & L & Epg & _ & _ & _ & Hsub & _ & _ & Hrow).
  rewrite Hrow. destruct (L !! i) as [f|] eqn:Ef; [|done]. exfalso.
  destruct (Hsub f ltac:(by eapply list_elem_of_lookup_2)) as [Hp _].
  apply true_positions_elem in Hp.
  apply peak_goodmask_Ok_inv in Epg as (dm & pg0 & _ & _ & Hm). rewrite Hm in Hp.
  apply threshold_step_true in Hp as (v & _ & Hv).
  destruct Ht as [-> | ->]; destruct v; done.
Qed.


Lemma ravel3_lt (z y x s0 s1 s2 : nat) :
  (z < s0 -> y < s1 -> x < s2 ->
   z * (s1 * (s2 * 1)) + (y * (s2 * 1) + (x * 1 + 0)) < s0 * (s1 * (s2 * 1)))%nat.
Proof.
  intros. rewrite !Nat.mul_1_r, Nat.add_0_r.
  assert (y * s2 + x < s1 * s2)%nat by nia.
  assert ((z + 1) * (s1 * s2) <= s0 * (s1 * s2))%nat by (apply Nat.mul_le_mono_r; lia).
  nia.
Qed.

Lemma fmax_fold_nan (r : list fval) : fold_left fmax r NaN = NaN.
Proof. induction r as [|y r IH]; simpl; [done|]. exact IH. Qed.

Lemma fmax_fold_spec (r : list fval) (acc : fval) :
  isnan acc = false ->
  isnan (fold_left fmax r acc) = false /\ fle acc (fold_left fmax r acc) = true /\
  (forall u, In u r -> isnan u = false -> fle u (fold_left fmax r acc) = true).
Proof.
  revert acc; induction r as [|y r IH]; intros acc Ha; simpl.
  - split; [done|]. split; [by apply fle_refl|]. done.
  - assert (isnan (fmax acc y) = false /\ fle acc (fmax acc y) = true /\
            (isnan y = false -> fle y (fmax acc y) = true)) as (N1 & L1 & L2).
    { unfold fmax. destruct (flt acc y) eqn:E.
      - split; [by eapply flt_not_nan|]. split; [unfold fle; by rewrite E|].
        intros Ny. by apply fle_refl.
      - split; [done|]. split; [by apply fle_refl|]. intros Ny. by apply fle_total. }
    destruct (IH _ N1) as (N2 & L3 & L4).
    split; [done|]. split; [by eapply fle_trans|].
    intros u [<-|Hu] Nu; [by eapply fle_trans; [apply L2|]|by apply L4].
Qed.

Lemma fmax_list_spec (l : list fval) :
  isnan (fmax_list l) = false ->
  forall u, In u l -> isnan u = false -> fle u (fmax_list l) = true.
Proof.
  destruct l as [|x r]; simpl; [done|]. intros N u Hu Nu.
  destruct (isnan x) eqn:Nx.
  - destruct x; try done. rewrite fmax_fold_nan in N. done.
  - destruct (fmax_fold_spec r x Nx) as (_ & L1 & L2).
    destruct Hu as [<-|Hu]; [done|]. by apply L2.
Qed.

Lemma fle_feq (u r v : fval) : fle u r = true -> feq v r = true -> fle u v = true.
Proof.
  unfold fle. destruct u, r, v; simpl; intros H1 H2; try done;
    rewrite ?orb_true_iff, ?Z.ltb_lt, ?Z.eqb_eq in *; lia.
Qed.

Lemma in_cart (ls : list (list Z)) (off : list Z) :
  Forall2 (fun o l => In o l) off ls -> In off (cart ls).
Proof.
  induction 1 as [|o l off ls Ho _ IH]; simpl; [by left|].
  apply in_flat_map. exists o. split; [done|]. by apply in_map.
Qed.

Lemma in_box_offsets (s c c' : nat) :
  in_window s c c' -> In (Z.of_nat c' - Z.of_nat c) (box_offsets s).
Proof.
  unfold in_window, box_offsets. intros Hw. apply in_map_iff.
  exists (Z.to_nat (Z.of_nat c' - Z.of_nat c + Z.of_nat (s / 2))). split; [lia|].
  apply in_seq. lia.
Qed.

Lemma nan_sanitized_nonan (d : ndarray fval) (v : fval) :
  In v (buf (nan_sanitized d)) -> isnan v = false ->
  forall u, In u (buf (nan_sanitized d)) -> isnan u = false.
Proof.
  unfold nan_sanitized. simpl. intros Hv Nv.
  assert (isnan (nanmin (buf d)) = false) as Nm.
  { apply in_map_iff in Hv as (x0 & <- & Hx0).
    destruct (isnan x0) eqn:Nx; [done|].
    by destruct (proj1 (nanmin_spec (buf d)) x0 Hx0 Nx). }
  intros u Hu. apply in_map_iff in Hu as (y & <- & _). by destruct (isnan y) eqn:Ny.
Qed.

(** In box mode ([footprint = None]), each reported peak is a maximum of
    its [box_size] window: every cell of the working array whose indices
    lie, on each axis, in the window of [box_size] cells scipy places
    around the peak is at most the peak value. *)
Theorem find_peaks_local_max {Sky PyObj : Type} (callable : PyObj -> bool)
    (centroid_sources : result (ndarray fval -> list fval -> list fval -> nat ->
       option (ndarray bool) -> option (ndarray fval) -> option (ndarray bool) -> PyObj ->
       result (list fval * list fval)))
    (argsort : list fval -> list nat) (Hsort : argsort_sorts argsort)
    (h : heap) (a : nat) (threshold : fval) (box_size : nat)
    (mask : option (ndarray bool)) (border_width : option Z)
    (npeaks : option nat) (centroid_func : option PyObj) (error : option (ndarray fval))
    (wcs : option (wcs_t Sky)) (d : ndarray fval) (s0 s1 s2 : nat) (t : table Sky) :
  h !! a = Some d -> shape d = [s0; s1; s2] -> length (buf d) = size (shape d) ->
  fst (find_peaks callable centroid_sources argsort h a threshold box_size None mask
         border_width npeaks centroid_func error wcs) = Ok t ->
  forall i z y x v z' y' x',
    row_of t i = Some (z, y, x, v) ->
    (z' < s0)%nat -> (y' < s1)%nat -> (x' < s2)%nat ->
    in_window box_size z z' -> in_window box_size y y' -> in_window box_size x x' ->
    fle (nd_get (nan_sanitized d) [z'; y'; x']) v = true.
Proof.
  intros Ha Hsh Hwf H i z y x v z' y' x' Hi Hz Hy Hx Wz Wy Wx.
  destruct (find_peaks_rows _ _ _ Hsort _ _ _ _ _ _ _ _ _ _ _ d t Ha Hwf H)
    as (m & L & Epg & _ & H3 & _ & Hsub & _ & _ & Hrow).
  rewrite Hrow in Hi.
  destruct (L !! i) as [f|] eqn:Ef; simpl in Hi; [|done]. apply (inj Some) in Hi.
  destruct (Hsub f ltac:(by eapply list_elem_of_lookup_2)) as [Hp Hfs].
  destruct (row_cell d f z y x v H3 Hfs Hi) as (Eu & _ & _).
  assert (nth f (buf (nan_sanitized d)) NaN = v) as Ev by (by injection Hi).
  destruct (final_mask_true _ _ _ _ _ _ _ f Epg Hp)
    as (dm & v0 & w & Emf & Hv0 & Hw & Hvw & _).
  rewrite (nth_lookup_Some _ _ _ _ Hv0) in Ev. subst v0.
  simpl in Emf. injection Emf as <-.
  unfold max_over in Hw. cbn [buf] in Hw. rewrite list_lookup_imap in Hw.
  apply fmap_Some in Hw as (x0 & _ & Hw). cbv beta in Hw.
  assert (isnan w = false) as Nw by (destruct v, w; done).
  assert (shape (nan_sanitized d) = [s0; s1; s2]) as Hsh' by exact Hsh.
  set (u := nd_get (nan_sanitized d) [z'; y'; x']).
  assert (In u (buf (nan_sanitized d))) as Hu.
  { unfold u, nd_get. apply nth_In. rewrite (nan_sanitized_wf d Hwf), Hsh'.
    cbn [ravel size foldr]. by apply ravel3_lt. }
  assert (isnan u = false) as Nu.
  { apply (nan_sanitized_nonan d v); [|by destruct v, w|done].
    by eapply list_elem_of_In, list_elem_of_lookup_2. }
  apply (fle_feq u w v); [|done].
  rewrite Hw. apply fmax_list_spec; [by rewrite <- Hw| |done].
  apply in_map_iff.
  exists [Z.of_nat z' - Z.of_nat z; Z.of_nat y' - Z.of_nat y; Z.of_nat x' - Z.of_nat x].
  split.
  - unfold u. f_equal. change (shape (nan_sanitized d)) with (shape d).
    rewrite Eu, Hsh. cbn [shift]. unfold clampi. f_equal; [lia|f_equal; [lia|f_equal; lia]].
  - unfold ndim. change (shape (nan_sanitized d)) with (shape d). rewrite Hsh.
    apply in_cart. repeat constructor; by apply in_box_offsets.
Qed.

(** Box mode with a mask of the wrong shape: the call raises
    [ValueError("data and mask must have the same shape")]. *)
Theorem find_peaks_mask_shape_error {Sky PyObj : Type} (callable : PyObj -> bool)
    (centroid_sources : result (ndarray fval -> list fval -> list fval -> nat ->
       option (ndarray bool) -> option (ndarray fval) -> option (ndarray bool) -> PyObj ->
       result (list fval * list fval)))
    (argsort : list fval -> list nat)
    (h : heap) (a : nat) (threshold : fval) (box_size : nat)
    (mk : ndarray bool) (border_width : option Z)
    (npeaks : option nat) (centroid_func : option PyObj) (error : option (ndarray fval))
    (wcs : option (wcs_t Sky)) (d : ndarray fval) :
  h !! a = Some d -> shape mk <> shape d ->
  fst (find_peaks callable centroid_sources argsort h a threshold box_size None (Some mk)
         border_width npeaks centroid_func error wcs)
  = Err (ValueError "data and mask must have the same shape").
Proof.
  intros Ha Hne. rewrite (find_peaks_fst _ _ _ _ _ _ _ _ _ _ _ _ _ _ d Ha).
  unfold find_peaks_on, peak_goodmask. cbn [maximum_filter rbind].
  unfold apply_mask, list_eqb. rewrite bool_decide_eq_false_2; [reflexivity|].
  change (shape (nan_sanitized d)) with (shape d). congruence.
Qed.

Lemma peak_goodmask_box_ok (data : ndarray fval) (threshold : fval) (box_size : nat)
    (mask : option (ndarray bool)) (border_width : option Z) :
  (forall mk, mask = Some mk -> shape mk = shape data) ->
  exists pg, peak_goodmask data threshold box_size None mask border_width = Ok pg.
Proof.
  intros Hm. unfold peak_goodmask. cbn [maximum_filter rbind].
  destruct mask as [mk|]; [|by eexists].
  unfold apply_mask, list_eqb. rewrite bool_decide_eq_true_2; [by eexists|].
  by rewrite (Hm mk eq_refl).
Qed.

(** A successful run with a [centroid_func] got past line 66 and line 68:
    the import resolved and [centroid_func] is callable. *)
Lemma find_peaks_centroid_Ok {Sky PyObj : Type} (callable : PyObj -> bool)
    (centroid_sources : result (ndarray fval -> list fval -> list fval -> nat ->
       option (ndarray bool) -> option (ndarray fval) -> option (ndarray bool) -> PyObj ->
       result (list fval * list fval)))
    (argsort : list fval -> list nat)
    (h : heap) (a : nat) (threshold : fval) (box_size : nat)
    (footprint mask : option (ndarray bool)) (border_width : option Z)
    (npeaks : option nat) (cf : PyObj) (error : option (ndarray fval))
    (wcs : option (wcs_t Sky)) (t : table Sky) :
  fst (find_peaks callable centroid_sources argsort h a threshold box_size footprint mask
         border_width npeaks (Some cf) error wcs) = Ok t ->
  (exists cs, centroid_sources = Ok cs) /\ callable cf = true.
Proof.
  intros H.
  apply find_peaks_Ok_inv in H as (h' & d' & data & _ & _ & H).
  apply find_peaks_on_Ok_inv in H as (pg & z & y & x & _ & _ & H).
  destruct (truncate argsort npeaks z y x (gather3 data z y x)) as [[[z' y'] x'] pv'].
  unfold build_table in H.
  assert (forall t1 : table Sky,
            rbind centroid_sources (fun cs =>
              if negb (callable cf) then Err (TypeError "centroid_func must be a callable object")
              else
                let! xy := cs data (as_float x') (as_float y') box_size footprint error mask cf in
                let t2 := set_column (set_column t1 "x_centroid" (FloatCol (fst xy)))
                            "y_centroid" (FloatCol (snd xy)) in
                match wcs with
                | None => Ok t2
                | Some w =>
                    let! sk := w (fst xy) (snd xy) in
                    Ok (add_column t2 "skycoord_centroid" (SkyCol sk)
                          (S (index_of "y_centroid" (colnames t2))))
                end) = Ok t ->
            (exists cs, centroid_sources = Ok cs) /\ callable cf = true) as Hc.
  { intros t1 E. destruct centroid_sources as [cs|e]; cbn [rbind] in E; [|done].
    destruct (callable cf); [by eauto|done]. }
  destruct wcs as [w|]; cbn [rbind] in H.
  - destruct (w (as_float x') (as_float y')) as [sk|]; cbn [rbind] in H; [|done].
    exact (Hc _ H).
  - exact (Hc _ H).
Qed.

(** [centroid_func] errors.  Line 66 imports [centroid_sources] before
    line 68 checks that [centroid_func] is callable.  So a run with a
    [centroid_func] never returns a table when the import fails (as it
    does in this repository) or when [centroid_func] is not callable; and
    on a rank-3 array in box mode, with no mask or one of the array's
    shape and no WCS, the call raises the import's error when the import
    fails, callable or not, and otherwise, for a [centroid_func] that is
    not callable, [TypeError("centroid_func must be a callable
    object")]. *)
Theorem find_peaks_centroid_errors {Sky PyObj : Type} (callable : PyObj -> bool)
    (centroid_sources : result (ndarray fval -> list fval -> list fval -> nat ->
       option (ndarray bool) -> option (ndarray fval) -> option (ndarray bool) -> PyObj ->
       result (list fval * list fval)))
    (argsort : list fval -> list nat)
    (h : heap) (a : nat) (threshold : fval) (box_size : nat)
    (footprint mask : option (ndarray bool)) (border_width : option Z)
    (npeaks : option nat) (cf : PyObj) (error : option (ndarray fval))
    (wcs : option (wcs_t Sky)) (d : ndarray fval) :
  h !! a = Some d ->
  ((exists e, centroid_sources = Err e) \/ callable cf = false ->
   forall t, fst (find_peaks callable centroid_sources argsort h a threshold box_size footprint
                    mask border_width npeaks (Some cf) error wcs) <> Ok t) /\
  (ndim d = 3%nat -> footprint = None -> wcs = None ->
   (forall mk, mask = Some mk -> shape mk = shape d) ->
   (forall e, centroid_sources = Err e ->
      fst (find_peaks callable centroid_sources argsort h a threshold box_size footprint mask
             border_width npeaks (Some cf) error wcs) = Err e) /\
   (forall cs, centroid_sources = Ok cs -> callable cf = false ->
      fst (find_peaks callable centroid_sources argsort h a threshold box_size footprint mask
             border_width npeaks (Some cf) error wcs)
      = Err (TypeError "centroid_func must be a callable object"))).
Proof.
  intros Ha. split.
  - intros Hor t H. apply find_peaks_centroid_Ok in H as [[cs Ecs] Hc].
    destruct Hor as [[e He] | Hc']; congruence.
  - intros H3 -> -> Hm. rewrite (find_peaks_fst _ _ _ _ _ _ _ _ _ _ _ _ _ _ d Ha).
    destruct (peak_goodmask_box_ok (nan_sanitized d) threshold box_size mask border_width Hm)
      as [pg Epg].
    unfold find_peaks_on. rewrite Epg. cbn [rbind].
    apply peak_goodmask_Ok_inv in Epg as (dm & pg0 & _ & Em & Hpg).
    assert (ndim pg = 3%nat) as Hpg3.
    { unfold ndim. rewrite Hpg, (working_shape _ _ _ _ _ _ Em). exact H3. }
    unfold nonzero3. rewrite Hpg3. cbn [Nat.eqb rbind].
    destruct (truncate _ _ _ _ _ _) as [[[z' y'] x'] pv'].
    unfold build_table. cbn [rbind]. split.
    + intros e ->. reflexivity.
    + intros cs -> Hc. cbn [rbind]. rewrite Hc. reflexivity.
Qed.

Lemma map_nth_seq_self {A} (l : list A) (d : A) :
  map (fun f => nth f l d) (seq 0 (length l)) = l.
Proof.
  induction l as [|x l IH]; [done|]. simpl. f_equal.
  rewrite <- seq_shift, map_map. simpl. exact IH.
Qed.

(** A negative [bin_size] on a cube with at least one channel: the
    channel count [shape[0] // bin_size] is negative and [np.zeros]
    raises; on a cube with no channel the result is an empty cube. *)
Theorem freq_smooth_negative_bin {F Sigma : Type} (fadd : F -> F -> F) (fzero : F)
    (sigma_truthy : Sigma -> bool) (gauss_convolve : list F -> Sigma -> list F)
    (astype : F -> F)
    (c : cube F) (bin_size : Z) (smooth : Sigma) :
  bin_size < 0 ->
  (planes F c <> [] ->
     freq_smooth F fadd fzero Sigma sigma_truthy gauss_convolve astype c bin_size smooth = None) /\
  (planes F c = [] ->
     freq_smooth F fadd fzero Sigma sigma_truthy gauss_convolve astype c bin_size smooth
     = Some (mk_cube F (n1 F c) (n2 F c) [])).
Proof.
  intros Hb. unfold freq_smooth.
  destruct (Z.eqb_spec bin_size 0) as [|_]; [lia|]. cbn [negb]. unfold bin_cube.
  split.
  - intros Hne. destruct (planes F c) as [|p ps]; [done|]. cbn [length].
    assert (Z.of_nat (S (length ps)) / bin_size < 0) as Hneg.
    { pose proof (Z.div_mod (Z.of_nat (S (length ps))) bin_size ltac:(lia)) as E.
      pose proof (Z.mod_neg_bound (Z.of_nat (S (length ps))) bin_size Hb) as B.
      nia. }
    by rewrite (proj2 (Z.ltb_lt _ _) Hneg).
  - intros ->. cbn [length]. rewrite Z.div_0_l by lia. reflexivity.
Qed.

(** [bin_size = 1]: every channel is its own group, summed alone, so
    the cube comes back unchanged (whatever [smooth] is). *)
Theorem freq_smooth_bin_one {F Sigma : Type} (fadd : F -> F -> F) (fzero : F)
    (sigma_truthy : Sigma -> bool) (gauss_convolve : list F -> Sigma -> list F)
    (astype : F -> F)
    (c : cube F) (smooth : Sigma) :
  freq_smooth F fadd fzero Sigma sigma_truthy gauss_convolve astype c 1 smooth = Some c.
Proof.
  unfold freq_smooth. cbn [Z.eqb negb]. unfold bin_cube.
  rewrite Z.div_1_r. destruct (Z.ltb_spec (Z.of_nat (length (planes F c))) 0); [lia|].
  rewrite Nat2Z.id. destruct c as [k1 k2 pls]. cbn [n1 n2 planes]. f_equal. f_equal.
  rewrite <- (map_nth_seq_self pls []) at 2. apply map_ext_in. intros f Hf.
  apply in_seq in Hf. unfold slab.
  rewrite !Z.mul_1_r, Nat2Z.id, Z2Nat.inj_add, Nat2Z.id by lia. cbn [planes].
  replace (f + Z.to_nat 1 - f)%nat with 1%nat by lia.
  destruct (nth_lookup_or_length pls f []) as [E|]; [|lia].
  rewrite (drop_S _ _ _ E). reflexivity.
Qed.

(** Smoothing mode ([bin_size = 0], truthy [smooth]), with a
    convolution that returns as many samples as it is given (astropy's
    [convolve] does): the cube keeps its shape, and the spectrum of every
    pixel is the convolution of the input spectrum of that pixel,
    converted into the cube's dtype. *)
Theorem freq_smooth_spectra {F Sigma : Type} (fadd : F -> F -> F) (fzero : F)
    (sigma_truthy : Sigma -> bool) (gauss_convolve : list F -> Sigma -> list F)
    (astype : F -> F)
    (c : cube F) (smooth : Sigma) :
  (forall l s, length (gauss_convolve l s) = length l) ->
  sigma_truthy smooth = true ->
  exists c',
    freq_smooth F fadd fzero Sigma sigma_truthy gauss_convolve astype c 0 smooth = Some c' /\
    n1 F c' = n1 F c /\ n2 F c' = n2 F c /\
    length (planes F c') = length (planes F c) /\
    Forall (fun pl => length pl = (n1 F c * n2 F c)%nat) (planes F c') /\
    forall p, (p < n1 F c * n2 F c)%nat ->
      spectrum F fzero c' p = map astype (gauss_convolve (spectrum F fzero c p) smooth).
Proof.
  intros Hlen Hs. exists (smooth_cube F fzero Sigma gauss_convolve astype c smooth).
  split; [unfold freq_smooth; simpl; by rewrite Hs|].
  unfold smooth_cube. cbn [n1 n2 planes].
  split; [done|]. split; [done|]. split; [by rewrite length_map, length_seq|]. split.
  - apply List.Forall_forall. intros pl Hpl. apply in_map_iff in Hpl as (f & <- & _).
    by rewrite length_map, length_seq.
  - intros p Hp.
    assert (length (spectrum F fzero c p) = length (planes F c)) as Hl
      by (unfold spectrum; by rewrite length_map).
    rewrite <- (map_nth_seq_self (gauss_convolve (spectrum F fzero c p) smooth) fzero).
    rewrite Hlen, Hl. unfold spectrum at 1. cbn [planes]. rewrite !map_map.
    apply map_ext_in. intros f _.
    rewrite (nth_map_lt _ _ _ 0%nat) by (by rewrite length_seq).
    rewrite seq_nth by done. reflexivity.
Qed.

Lemma nd_eq {A} (a b : ndarray A) :
  shape a = shape b -> (forall i, buf a !! i = buf b !! i) -> a = b.
Proof. destruct a, b; simpl. intros -> H. f_equal. by apply list_eq. Qed.

Lemma splice_lookup {A} (b bp : list A) (k sz n : nat) :
  (S k * sz <= length b)%nat -> length bp = sz ->
  (take (k * sz) b ++ bp ++ drop (S k * sz) b) !! n =
  if (n <? k * sz)%nat then b !! n
  else if (n <? S k * sz)%nat then bp !! (n - k * sz)%nat else b !! n.
Proof.
  intros Hb Hp. assert (length (take (k * sz) b) = k * sz)%nat as Ht
    by (rewrite length_take; lia).
  destruct (Nat.ltb_spec n (k * sz)).
  - rewrite lookup_app_l by lia. by rewrite lookup_take_lt.
  - rewrite lookup_app_r by lia. rewrite Ht.
    destruct (Nat.ltb_spec n (S k * sz)).
    + rewrite lookup_app_l by lia. done.
    + rewrite lookup_app_r by lia. rewrite lookup_drop. f_equal. lia.
Qed.

Lemma plane_lookup (o : ndarray fval) (j i : nat) :
  buf (plane o j) !! i =
  if (i <? size (tail (shape o)))%nat then buf o !! (j * size (tail (shape o)) + i)%nat
  else None.
Proof.
  unfold plane. simpl. destruct (Nat.ltb_spec i (size (tail (shape o)))).
  - rewrite lookup_take_lt by done. by rewrite lookup_drop.
  - by rewrite lookup_take_ge.
Qed.

Lemma plane_length (o : ndarray fval) (s0 j : nat) (sh' : list nat) :
  shape o = s0 :: sh' -> length (buf o) = size (shape o) -> (j < s0)%nat ->
  length (buf (plane o j)) = size (shape (plane o j)).
Proof.
  intros Hsh Hl Hj. unfold plane. simpl. rewrite Hsh in *. simpl in *.
  rewrite length_take, length_drop.
  assert (j * size sh' + size sh' <= s0 * size sh')%nat by nia. lia.
Qed.

Section ExtendSmooth.
Context {Kernel : Type} (convolve2d : ndarray fval -> Kernel -> ndarray fval).
Context (kernel2d : Kernel).
Hypothesis conv_shape : forall p, length (buf p) = size (shape p) ->
  shape (convolve2d p kernel2d) = shape p /\
  length (buf (convolve2d p kernel2d)) = size (shape p).


Lemma smooth_fold (out : ndarray fval) (s0 : nat) (sh' : list nat) (n : nat) :
  shape out = s0 :: sh' -> length (buf out) = size (shape out) -> (n <= s0)%nat ->
  exists o, fold_left (smooth_step Kernel convolve2d kernel2d) (seq 0 n) (Ok out) = Ok o /\
    shape o = shape out /\ length (buf o) = length (buf out) /\
    forall j, (j < s0)%nat ->
      plane o j = if (j <? n)%nat then convolve2d (plane out j) kernel2d else plane out j.
Proof.
  intros Hsh Hl. induction n as [|n IH]; intros Hn.
  - exists out. split; [done|]. split; [done|]. split; [done|]. intros j _. done.
  - destruct IH as (o & Ef & Ho & Hol & Hp); [lia|].
    rewrite seq_S, fold_left_app, Ef. cbn [fold_left]. unfold smooth_step at 1. cbn [rbind].
    rewrite Nat.add_0_l, (Hp n ltac:(lia)), (proj2 (Nat.ltb_ge n n) ltac:(lia)).
    assert (length (buf (plane out n)) = size (shape (plane out n))) as Hpl
      by (apply (plane_length out s0 n sh'); done || lia).
    destruct (conv_shape _ Hpl) as [Cs Cl].
    unfold set_plane. rewrite Cs.
    assert (shape (plane out n) = tail (shape o)) as Eps by (unfold plane; simpl; by rewrite Ho).
    unfold list_eqb. rewrite bool_decide_eq_true_2 by done.
    eexists. split; [reflexivity|]. simpl. split; [done|].
    assert (size (tail (shape o)) = size sh') as Hsz by (by rewrite Ho, Hsh).
    assert (size (shape (plane out n)) = size sh') as Hsz' by (by rewrite Eps).
    assert (length (buf o) = s0 * size sh')%nat as Hlo by (rewrite Hol, Hl, Hsh; done).
    split.
    { rewrite !length_app, length_take, length_drop, Cl, Hsz, Hsz', Hlo.
      rewrite Hl, Hsh. simpl. nia. }
    intros j Hj. specialize (Hp j Hj).
    apply nd_eq.
    + unfold plane at 1. cbn [shape]. rewrite Ho.
      destruct (j <? S n)%nat; [|reflexivity].
      destruct (conv_shape (plane out j)) as [Cs' _];
        [apply (plane_length out s0 j sh'); done || lia|].
      by rewrite Cs'.
    + intros i. rewrite plane_lookup. cbn [shape buf]. rewrite Hsz. replace (size sh' + n * size sh')%nat with (S n * size sh')%nat by lia.
      rewrite (splice_lookup (buf o) _ n (size sh')); [|nia|rewrite Cl; done].
      destruct (Nat.ltb_spec i (size sh')) as [Hi|Hi].
      * destruct (Nat.ltb_spec j (S n)).
        -- destruct (Nat.ltb_spec j n).
           ++ rewrite (proj2 (Nat.ltb_lt (j * size sh' + i) (n * size sh'))) by nia.
              rewrite <- Hp, plane_lookup, Hsz. by rewrite (proj2 (Nat.ltb_lt _ _) Hi).
           ++ assert (j = n) as -> by lia.
              rewrite (proj2 (Nat.ltb_ge (n * size sh' + i) (n * size sh'))) by nia.
              rewrite (proj2 (Nat.ltb_lt (n * size sh' + i) (S n * size sh'))) by nia.
              f_equal. lia.
        -- rewrite (proj2 (Nat.ltb_ge (j * size sh' + i) (n * size sh'))) by nia.
           rewrite (proj2 (Nat.ltb_ge (j * size sh' + i) (S n * size sh'))) by nia.
           rewrite (proj2 (Nat.ltb_ge j n)) in Hp by lia. rewrite <- Hp, plane_lookup, Hsz. by rewrite (proj2 (Nat.ltb_lt _ _) Hi).
      * destruct (Nat.ltb_spec j (S n)) as [Hj'|Hj'].
        -- symmetry. apply lookup_ge_None.
           destruct (Nat.ltb_spec j n).
           ++ destruct (conv_shape (plane out j)) as [_ Cl'];
                [apply (plane_length out s0 j sh'); done || lia|].
              rewrite Cl'. unfold plane. simpl. rewrite Hsh. simpl. lia.
           ++ assert (j = n) as -> by lia. rewrite Cl, Hsz'. lia.
        -- symmetry. apply lookup_ge_None. unfold plane. simpl.
           rewrite length_take, Hsh. simpl. lia.
Qed.

End ExtendSmooth.

Lemma zeros_ok (dims : list Z) (o : ndarray fval) :
  zeros dims = Ok o -> shape o = map Z.to_nat dims /\ length (buf o) = size (shape o).
Proof.
  unfold zeros. destruct (existsb _ _); [done|]. intros [= <-]. simpl.
  split; [done|]. apply repeat_length.
Qed.

(** [extend] with smoothing on a 3-D array, once the kernel is built and
    with a convolution that keeps the shape of the image it is given:
    the result has the shape of the unsmoothed one, and each frequency
    plane is the convolution of the same plane of the unsmoothed result
    with the one kernel: the planes are smoothed independently. *)
Theorem extend_3d_smooth {Kernel : Type} (make_2dgaussian_kernel : Z -> Z -> result Kernel)
    (convolve2d : ndarray fval -> Kernel -> ndarray fval)
    (array : ndarray fval) (s0 s1 s2 : nat) (num : Z) (kernel2d : Kernel)
    (out : ndarray fval) :
  shape array = [s0; s1; s2] ->
  extend Kernel make_2dgaussian_kernel convolve2d array num false = Ok out ->
  make_2dgaussian_kernel num (4 * num + 1) = Ok kernel2d ->
  (forall p, length (buf p) = size (shape p) ->
     shape (convolve2d p kernel2d) = shape p /\
     length (buf (convolve2d p kernel2d)) = size (shape p)) ->
  exists out',
    extend Kernel make_2dgaussian_kernel convolve2d array num true = Ok out' /\
    shape out' = shape out /\ length (buf out') = size (shape out') /\
    forall freq, (freq < s0)%nat ->
      plane out' freq = convolve2d (plane out freq) kernel2d.
Proof.
  intros Hsh Hout Hk Hc.
  unfold extend in Hout |- *. rewrite Hsh in Hout |- *. cbn [length map nth Nat.eqb] in Hout |- *.
  destruct (zeros _) as [o0|e] eqn:Ez; cbn [rbind] in Hout |- *; [|discriminate].
  injection Hout as Hout. rewrite Hk. cbn [rbind Nat.eqb]. rewrite Hout.
  destruct (zeros_ok _ _ Ez) as [Hs0 Hl0].
  destruct (extend_fill_shape array o0 num) as [Es El]. rewrite Hout in Es, El.
  assert (shape out = s0 :: tail (shape out)) as Hso by (rewrite Es, Hs0; simpl; by rewrite Nat2Z.id).
  assert (length (buf out) = size (shape out)) as Hlo by (rewrite El, Hl0, Es; done).
  destruct (smooth_fold convolve2d kernel2d Hc out s0 (tail (shape out)) s0 Hso Hlo
              ltac:(lia)) as (o & Ef & Hs & Hl & Hp).
  exists o. rewrite Hso. cbn [nth]. split; [exact Ef|].
  rewrite <- Hso. split; [done|]. split; [by rewrite Hl, Hs|].
  intros freq Hf. rewrite (Hp freq Hf). by rewrite (proj2 (Nat.ltb_lt _ _) Hf).
Qed.








Lemma find_peaks_rows_valid_witness :
  ((2 < 5 /\ 2 < 5 /\ 2 < 5)%nat /\ Fin 10 = nd_get (nan_sanitized cube5) [2; 2; 2]%nat).
Proof.
  destruct (find_peaks_rows_valid (fun _ : unit => true) (Ok centroid_guess) argsort_small argsort_small_sorts [cube5] 0%nat (Fin 0)
              3%nat None None None None None None (@None (wcs_t unit)) cube5 5 5 5 peaks_cube5)
    as (_ & H & _); [reflexivity | reflexivity | vm_compute; reflexivity
                     | vm_compute; reflexivity |].
  apply (H 0%nat). vm_compute. reflexivity.
Defined.

Lemma find_peaks_masked_excluded_witness :
  buf mask_x0 !! ravel [1; 1; 3]%nat [0; 0; 2]%nat = Some false.
Proof.
  apply (find_peaks_masked_excluded (fun _ : unit => true) (Ok centroid_guess) argsort_small argsort_small_sorts [field_5_1_5] 0%nat
           (Fin 0) 3%nat None mask_x0 None None None None (@None (wcs_t unit)) field_5_1_5
           peaks_x2)
    with (i := 0%nat) (v := Fin 5);
    [reflexivity | vm_compute; reflexivity | vm_compute; reflexivity
    | vm_compute; reflexivity].
Defined.

Lemma find_peaks_scan_order_witness :
  ((0 * 1 + 0) * 3 + 0 < (0 * 1 + 0) * 3 + 2)%nat.
Proof.
  apply (find_peaks_scan_order (fun _ : unit => true) (Ok centroid_guess) argsort_small argsort_small_sorts [field_5_1_5] 0%nat
           (Fin 0) 3%nat None None None None None (@None (wcs_t unit)) field_5_1_5 1 1 3
           peaks_5_1_5)
    with (i := 0%nat) (j := 1%nat) (v := Fin 5) (v' := Fin 5);
    [reflexivity | reflexivity | vm_compute; reflexivity | vm_compute; reflexivity
    | vm_compute; reflexivity | vm_compute; reflexivity | lia].
Defined.

Lemma find_peaks_unreachable_threshold_witness :
  row_of empty_peaks 0%nat = None.
Proof.
  apply (find_peaks_unreachable_threshold (fun _ : unit => true) (Ok centroid_guess) argsort_small argsort_small_sorts [cube5] 0%nat
           NaN 3%nat None None None None None None (@None (wcs_t unit)) cube5 empty_peaks);
    [reflexivity | vm_compute; reflexivity | by left | vm_compute; reflexivity].
Defined.

Lemma find_peaks_local_max_witness :
  fle (nd_get (nan_sanitized cube5) [1; 2; 3]%nat) (Fin 10) = true.
Proof.
  apply (find_peaks_local_max (fun _ : unit => true) (Ok centroid_guess) argsort_small argsort_small_sorts [cube5] 0%nat (Fin 0)
           3%nat None None None None None (@None (wcs_t unit)) cube5 5 5 5 peaks_cube5)
    with (i := 0%nat) (z := 2%nat) (y := 2%nat) (x := 2%nat);
    try reflexivity; try (vm_compute; reflexivity); unfold in_window; simpl; lia.
Defined.

Lemma find_peaks_mask_shape_error_witness :
  fst (find_peaks_u [field_5_1_5] 0%nat (Fin 0) 3%nat None
         (Some (mk_nd [1; 3]%nat [false; false; false])) None None None None None)
  = Err (ValueError "data and mask must have the same shape").
Proof.
  apply (find_peaks_mask_shape_error (fun _ : unit => true) (Ok centroid_guess) argsort_small [field_5_1_5] 0%nat
           (Fin 0) 3%nat (mk_nd [1; 3]%nat [false; false; false]) None None None None
           (@None (wcs_t unit)) field_5_1_5);
    [reflexivity | vm_compute; congruence].
Defined.

Lemma find_peaks_centroid_errors_witness :
  fst (@find_peaks unit unit (fun _ => true) centroid_import_repo argsort_small [field_5_1_5]
         0%nat (Fin 0) 3%nat None None None None (Some tt) None None)
  = Err (ImportError "attempted relative import with no known parent package") /\
  fst (@find_peaks unit unit (fun _ => false) (Ok centroid_guess) argsort_small [field_5_1_5]
         0%nat (Fin 0) 3%nat None None None None (Some tt) None None)
  = Err (TypeError "centroid_func must be a callable object").
Proof.
  split.
  - destruct (proj2 (find_peaks_centroid_errors (fun _ : unit => true) centroid_import_repo
                       argsort_small [field_5_1_5] 0%nat (Fin 0) 3%nat None None None None tt
                       None (@None (wcs_t unit)) field_5_1_5 eq_refl)) as [E _];
      [reflexivity | reflexivity | reflexivity | intros mk Hmk; discriminate |].
    exact (E _ eq_refl).
  - destruct (proj2 (find_peaks_centroid_errors (fun _ : unit => false) (Ok centroid_guess)
                       argsort_small [field_5_1_5] 0%nat (Fin 0) 3%nat None None None None tt
                       None (@None (wcs_t unit)) field_5_1_5 eq_refl)) as [_ E];
      [reflexivity | reflexivity | reflexivity | intros mk Hmk; discriminate |].
    exact (E _ eq_refl eq_refl).
Defined.

Lemma freq_smooth_negative_bin_witness :
  freq_smooth Z Z.add 0 Z z_truthy id_convolve id cube_z5 (-2) 0 = None /\
  freq_smooth Z Z.add 0 Z z_truthy id_convolve id (mk_cube Z 2 2 []) (-2) 0
    = Some (mk_cube Z 2 2 []).
Proof.
  split.
  - apply (proj1 (freq_smooth_negative_bin Z.add 0 z_truthy id_convolve id cube_z5 (-2) 0
                    ltac:(lia))). discriminate.
  - apply (proj2 (freq_smooth_negative_bin Z.add 0 z_truthy id_convolve id
                    (mk_cube Z 2 2 []) (-2) 0 ltac:(lia))). reflexivity.
Defined.

Lemma freq_smooth_spectra_witness :
  exists c',
    freq_smooth Z Z.add 0 Z z_truthy (fun l _ => map (Z.mul 2) l) (fun z => Z.quot z 4)
      cube_z5 0 1 = Some c' /\
    spectrum Z 0 c' 0%nat = [0; 1; 1; 2; 2].
Proof.
  destruct (freq_smooth_spectra Z.add 0 z_truthy (fun l _ => map (Z.mul 2) l)
              (fun z => Z.quot z 4) cube_z5 1)
    as (c' & E & _ & _ & _ & _ & Hs);
    [intros l s; apply length_map | reflexivity |].
  exists c'. split; [exact E|]. rewrite Hs by (vm_compute; lia). reflexivity.
Defined.

Lemma extend_3d_smooth_witness :
  exists out',
    extend unit (fun _ _ => Ok tt) clip3 ext_arr3 2 true = Ok out' /\
    plane out' 1 = clip3 (plane ext_out3 1) tt.
Proof.
  destruct (extend_3d_smooth (fun _ _ => Ok tt) clip3 ext_arr3 2 2 2 2 tt ext_out3)
    as (out' & E & _ & _ & Hp);
    [reflexivity | vm_compute; reflexivity | reflexivity
    | intros p Hp; split; [reflexivity | simpl; by rewrite length_map] |].
  exists out'. split; [exact E|]. apply Hp. lia.
Defined.

(** With [npeaks = k], a successful call returns at most [k] rows. *)
Theorem find_peaks_npeaks_bound {Sky PyObj : Type} (callable : PyObj -> bool)
    (centroid_sources : result (ndarray fval -> list fval -> list fval -> nat ->
       option (ndarray bool) -> option (ndarray fval) -> option (ndarray bool) -> PyObj ->
       result (list fval * list fval)))
    (argsort : list fval -> list nat) (Hsort : argsort_sorts argsort)
    (h : heap) (a : nat) (threshold : fval) (box_size : nat)
    (footprint mask : option (ndarray bool)) (border_width : option Z)
    (k : nat) (centroid_func : option PyObj) (error : option (ndarray fval))
    (wcs : option (wcs_t Sky)) (d : ndarray fval) (t : table Sky) :
  h !! a = Some d -> length (buf d) = size (shape d) ->
  fst (find_peaks callable centroid_sources argsort h a threshold box_size footprint mask
         border_width (Some k) centroid_func error wcs) = Ok t ->
  forall i, (k <= i)%nat -> row_of t i = None.
Proof.
  intros Ha Hwf H i Hi.
  destruct (find_peaks_rows _ _ _ Hsort _ _ _ _ _ _ _ _ _ _ _ d t Ha Hwf H)
    as (m & L & _ & _ & _ & _ & _ & _ & Hk & Hrow).
  rewrite Hrow. specialize (Hk k eq_refl).
  by rewrite (proj2 (lookup_ge_None L i)) by lia.
Qed.

Lemma find_peaks_npeaks_bound_witness :
  row_of peaks_x2 1%nat = None.
Proof.
  apply (find_peaks_npeaks_bound (fun _ : unit => true) (Ok centroid_guess) argsort_small argsort_small_sorts [field_5_1_5] 0%nat
           (Fin 0) 3%nat None None None 1%nat None None (@None (wcs_t unit)) field_5_1_5
           peaks_x2);
    [reflexivity | vm_compute; reflexivity | vm_compute; reflexivity | lia].
Defined.
